(** * Event join workflow of [backend/src/routes/events.js]

    A shallow embedding of the four route handlers that make up the
    join-request / capacity subsystem:

      - [POST /events/:id/join]                         ([join])
      - [POST /events/:id/approve-request/:requestId]   ([approveRequest])
      - [POST /events/:id/reject-request/:requestId]    ([rejectRequest])
      - [POST /events/:id/leave]                        ([leave])

    and, around them, of [DELETE /events/:id] ([deleteEvent]) and of the
    join route of the earlier revision of the file ([joinLegacy]).

    Each handler reads one event document ([Event.findById]), mutates it in
    memory and commits it with a single [event.save()].  A handler is
    modelled as a function from the document that was found to an
    [Outcome]: the HTTP response, the document handed to [save] (if the
    handler got that far) and the socket notification it emitted.  What
    [populate] finds in the users collection is an input too: a handler
    that has saved can still fail while it builds its notification. *)

From Stdlib Require Import ZArith String List Lia.
From stdpp Require Import base decidable option list strings gmap.

Local Open Scope string_scope.
Local Open Scope Z_scope.

(** ** Data model *)

Module Model.

(** [joinRequests[].status]; the handlers write and test the three strings
    "pending", "approved" and "rejected". *)
Inductive RequestStatus := pending | approved | rejected.

(** [pricing.type]; the join handler only tests it against "paid". *)
Inductive PricingType := free | paid.

#[global] Instance RequestStatus_eq_dec : EqDecision RequestStatus.
Proof. solve_decision. Defined.

#[global] Instance PricingType_eq_dec : EqDecision PricingType.
Proof. solve_decision. Defined.

(** [event.capacity].  [max] may be missing ([undefined]); the join handler
    guards against that with [event.capacity?.max || 1000]. *)
Record Capacity := {
  current : Z;
  max : option Z
}.

(** [event.pricing]; [amount] is only ever copied into a response. *)
Record Pricing := {
  type : PricingType;
  amount : Z;
  currency : string
}.

(** An element of [event.joinRequests].  [_id] is the sub-document id that
    [event.joinRequests.id(requestId)] searches for. *)
Record JoinRequest := {
  _id : string;
  user : string;
  transactionCode : string;
  requestedAt : Z;
  status : RequestStatus
}.

(** The event document.  [capacity] and [pricing] are optional because the
    join handler tests them for presence ([event.capacity?.max],
    [if (event.capacity)], [event.pricing && ...]).  The object ids in
    [organizer], [participants] and [waitlist] are compared through their
    string form, so they are strings here.  [joinRequests] is always an
    array, which makes the handler's [Array.isArray] initialisation a
    no-op. *)
Record Event := {
  eventId : string;
  title : string;
  organizer : string;
  capacity : option Capacity;
  participants : list string;
  waitlist : list string;
  joinRequests : list JoinRequest;
  requiresApproval : bool;
  pricing : option Pricing
}.

(** Field updates, one per assignment form used by the handlers. *)
Definition set_current (n : Z) (c : Capacity) : Capacity :=
  {| current := n; max := max c |}.

Definition set_status (s : RequestStatus) (r : JoinRequest) : JoinRequest :=
  {| _id := _id r; user := user r; transactionCode := transactionCode r;
     requestedAt := requestedAt r; status := s |}.

Definition set_capacity (c : option Capacity) (e : Event) : Event :=
  {| eventId := eventId e; title := title e; organizer := organizer e;
     capacity := c; participants := participants e; waitlist := waitlist e;
     joinRequests := joinRequests e; requiresApproval := requiresApproval e;
     pricing := pricing e |}.

Definition set_participants (ps : list string) (e : Event) : Event :=
  {| eventId := eventId e; title := title e; organizer := organizer e;
     capacity := capacity e; participants := ps; waitlist := waitlist e;
     joinRequests := joinRequests e; requiresApproval := requiresApproval e;
     pricing := pricing e |}.

Definition set_waitlist (ws : list string) (e : Event) : Event :=
  {| eventId := eventId e; title := title e; organizer := organizer e;
     capacity := capacity e; participants := participants e; waitlist := ws;
     joinRequests := joinRequests e; requiresApproval := requiresApproval e;
     pricing := pricing e |}.

Definition set_joinRequests (rs : list JoinRequest) (e : Event) : Event :=
  {| eventId := eventId e; title := title e; organizer := organizer e;
     capacity := capacity e; participants := participants e;
     waitlist := waitlist e; joinRequests := rs;
     requiresApproval := requiresApproval e; pricing := pricing e |}.

(** ** Responses, notifications, outcomes *)

(** The JSON bodies the four handlers send.  The payment error copies
    [event.pricing.amount] and [event.pricing.currency]; the join route's
    [catch] sends [{ error, details: err.message }]. *)
Inductive Body :=
| ErrorBody (error : string)
| FailureBody (error details : string)
| PaymentErrorBody (error : string) (amount : option Z)
                   (currency : option string)
| JoinBody (success : bool) (message : string) (event : Event)
           (requiresApproval : bool)
| MessageBody (message : string) (event : Event)
| EventBody (event : Event).

Record Response := {
  code : Z;
  body : Body
}.

(** Payloads of [io.emit].  The join route sends ids; the approve and
    reject routes send as [userId] the string [request.user.toString()] of
    the populated requester, which is the printed user document. *)
Inductive Notification :=
| participant_joined (eventId eventTitle organizerId participantId : string)
| join_request_created (eventId eventTitle organizerId requesterId : string)
| join_request_approved (eventId eventTitle userId : string)
| join_request_rejected (eventId eventTitle userId : string).

(** What one run of a handler did: the response sent, the document passed
    to [event.save()] ([None] when the handler returned or threw before the
    save) and the notification emitted.

    The handlers read the users collection through [populate]; it enters
    as a function [users : string → option string] that gives, for a user
    id, the user document as [populate(..., "username avatar")] and
    [toString()] print it, and [None] when the document is gone (the
    reference is then populated with [null]). *)
Record Outcome := {
  response : Response;
  saved : option Event;
  emitted : option Notification
}.

End Model.
Export Model.

(** ** JavaScript operators the handlers rely on *)

Module JS.

(** [v || d] for an optional number [v]: [undefined] and [0] are falsy. *)
Definition or_default (v : option Z) (d : Z) : Z :=
  match v with
  | Some n => if decide (n = 0) then d else n
  | None => d
  end.

(** [!s] for an optional string: [undefined] and the empty string are
    falsy. *)
Definition falsy (s : option string) : bool :=
  match s with
  | Some t => bool_decide (t = "")
  | None => true
  end.

(** [s || d] for an optional string. *)
Definition or_string (s : option string) (d : string) : string :=
  match s with
  | Some t => if decide (t = "") then d else t
  | None => d
  end.

(** [a >= b] where [b] may be [undefined]: a comparison with [undefined]
    is false. *)
Definition ge (a : Z) (b : option Z) : bool :=
  match b with
  | Some n => bool_decide (n ≤ a)
  | None => false
  end.

End JS.

(** ** The route handlers *)

Module Routes.

(** [return res.status(c).json(b)] before any save. *)
Definition reply (c : Z) (b : Body) : Outcome :=
  {| response := {| code := c; body := b |}; saved := None; emitted := None |}.

(** [return res.status(c).json({ error: msg })]. *)
Definition fail (c : Z) (msg : string) : Outcome :=
  reply c (ErrorBody msg).

(** [const maxCapacity = event.capacity?.max || 1000]. *)
Definition maxCapacity (event : Event) : Z :=
  JS.or_default (capacity event ≫= max) 1000.

(** [event.joinRequests.some(req => req.user.toString() === userId &&
    req.status === "pending")]. *)
Definition hasPendingRequest (event : Event) (userId : string) : bool :=
  bool_decide
    (Exists (λ r, user r = userId ∧ status r = pending) (joinRequests event)).

(** [err.message] of the [TypeError] that [event.organizer._id] raises
    when [populate("organizer")] found no document. *)
Definition null_id_message : string :=
  "Cannot read properties of null (reading '_id')".

(** The part of a handler after [await event.save()]: when the socket
    server is set the payload of the notification is built, and if that
    dereferences [null] ([payload = None]) the [catch] answers 500 with
    [failure], the document being saved already; otherwise the
    notification goes out and the handler answers 200 with [ok]. *)
Definition finish (io : bool) (event' : Event) (payload : option Notification)
    (ok failure : Body) : Outcome :=
  {| response :=
       if io then
         match payload with
         | Some _ => {| code := 200; body := ok |}
         | None => {| code := 500; body := failure |}
         end
       else {| code := 200; body := ok |};
     saved := Some event';
     emitted := if io then payload else None |}.

(** The tail of the join handler, from "DECISION: Approve immediately or
    create request?" on.  [event.organizer] was populated when the event
    was found, so [event.organizer._id] needs the organizer's document. *)
Definition join_decide (users : string → option string) (event : Event)
    (userId : string) (transactionCode : option string) (now : Z)
    (newId : string) (io : bool) : Outcome :=
  if requiresApproval event then
    let event' :=
      set_joinRequests
        (joinRequests event ++
           [ {| _id := newId; user := userId;
                transactionCode := JS.or_string transactionCode "FREE";
                requestedAt := now; status := pending |} ])
        event in
    finish io event'
      ((λ _, join_request_created (eventId event') (title event')
               (organizer event') userId)
         <$> users (organizer event'))
      (JoinBody true "Join request submitted! Awaiting organizer approval."
         event' true)
      (FailureBody "Failed to join event" null_id_message)
  else
    let pushed := set_participants (participants event ++ [userId]) event in
    let event' :=
      set_capacity
        (set_current (Z.of_nat (length (participants pushed)))
           <$> capacity pushed)
        pushed in
    finish io event'
      ((λ _, participant_joined (eventId event') (title event')
               (organizer event') userId)
         <$> users (organizer event'))
      (JoinBody true "Successfully joined event!" event' false)
      (FailureBody "Failed to join event" null_id_message).

(** [const isPaid = event.pricing && event.pricing.type === "paid"]. *)
Definition isPaid (event : Event) : bool :=
  match pricing event with
  | Some p => bool_decide (type p = paid)
  | None => false
  end.

(** [POST /events/:id/join].  [found] is the result of [Event.findById],
    [now] the value of [new Date()], [newId] the id the store gives to a
    pushed join request, [io] whether [req.app.get("io")] is set. *)
Definition join (users : string → option string) (found : option Event)
    (userId : string) (transactionCode : option string) (now : Z)
    (newId : string) (io : bool) : Outcome :=
  match found with
  | None => fail 404 "Event not found"
  | Some event =>
    if decide (userId ∈ participants event) then
      fail 400 "You have already joined this event"
    else if decide (maxCapacity event ≤ Z.of_nat (length (participants event)))
    then fail 400 "Event is at full capacity"
    else if isPaid event && JS.falsy transactionCode then
      reply 400
        (PaymentErrorBody "Transaction code is required for paid events"
           (amount <$> pricing event) (currency <$> pricing event))
    else if requiresApproval event && hasPendingRequest event userId then
      fail 400 "You already have a pending join request"
    else join_decide users event userId transactionCode now newId io
  end.

(** [POST /events/:id/approve-request/:requestId].  [reqUser] is
    [req.user.id].  Reading [event.capacity.current] of a missing capacity
    throws; the handler's [catch] answers 500 and nothing is saved.  After
    the save [request.user] is populated, and [request.user.toString()]
    needs the requester's document. *)
Definition approveRequest (users : string → option string)
    (found : option Event) (requestId reqUser : string) (io : bool)
    : Outcome :=
  match found with
  | None => fail 404 "Event not found"
  | Some event =>
    if decide (organizer event ≠ reqUser) then
      fail 403 "Only event organizer can approve requests"
    else
      match list_find (λ r, _id r = requestId) (joinRequests event) with
      | None => fail 404 "Join request not found"
      | Some (i, request) =>
        if decide (status request ≠ pending) then
          fail 400 "Request already processed"
        else
          match capacity event with
          | None => fail 500 "Failed to approve request"
          | Some c =>
            if JS.ge (current c) (max c) then
              fail 400 "Event is at full capacity"
            else
              let event' :=
                set_capacity (Some (set_current (current c + 1) c))
                  (set_participants (participants event ++ [user request])
                     (set_joinRequests
                        (<[i := set_status approved request]>
                           (joinRequests event))
                        event)) in
              finish io event'
                (join_request_approved (eventId event') (title event')
                   <$> users (user request))
                (MessageBody "Join request approved" event')
                (ErrorBody "Failed to approve request")
          end
      end
  end.

(** [POST /events/:id/reject-request/:requestId]. *)
Definition rejectRequest (users : string → option string)
    (found : option Event) (requestId reqUser : string) (io : bool)
    : Outcome :=
  match found with
  | None => fail 404 "Event not found"
  | Some event =>
    if decide (organizer event ≠ reqUser) then
      fail 403 "Only event organizer can reject requests"
    else
      match list_find (λ r, _id r = requestId) (joinRequests event) with
      | None => fail 404 "Join request not found"
      | Some (i, request) =>
        if decide (status request ≠ pending) then
          fail 400 "Request already processed"
        else
          let event' :=
            set_joinRequests
              (<[i := set_status rejected request]> (joinRequests event))
              event in
          finish io event'
            (join_request_rejected (eventId event') (title event')
               <$> users (user request))
            (MessageBody "Join request rejected" event')
            (ErrorBody "Failed to reject request")
      end
  end.

(** [POST /events/:id/leave].  [participants.indexOf] is the first index
    holding [reqUser]; [splice(index, 1)] deletes it; [waitlist.shift()]
    takes the head.  As in [approveRequest], a missing capacity makes
    [event.capacity.current -= 1] throw before the save. *)
Definition leave (found : option Event) (reqUser : string) : Outcome :=
  match found with
  | None => fail 404 "Event not found"
  | Some event =>
    match list_find (λ p, p = reqUser) (participants event) with
    | None => fail 400 "Not a participant"
    | Some (index, _) =>
      let spliced := delete index (participants event) in
      match capacity event with
      | None => fail 500 "Failed to leave event"
      | Some c =>
        let c1 := set_current (current c - 1) c in
        let event1 := set_capacity (Some c1) (set_participants spliced event) in
        let event' :=
          match waitlist event with
          | nextUser :: rest =>
            set_capacity (Some (set_current (current c1 + 1) c1))
              (set_participants (spliced ++ [nextUser])
                 (set_waitlist rest event1))
          | [] => event1
          end in
        {| response := {| code := 200; body := EventBody event' |};
           saved := Some event';
           emitted := None |}
      end
    end
  end.

End Routes.
Export Routes.

(** ** The stored document as a state machine *)

Module Store.

(** A request to one of the four routes for a fixed event. *)
Inductive Request :=
| Join (userId : string) (transactionCode : option string) (now : Z)
       (newId : string)
| Approve (requestId reqUser : string)
| Reject (requestId reqUser : string)
| Leave (reqUser : string).

Definition handle (users : string → option string) (io : bool)
    (rq : Request) (found : option Event) : Outcome :=
  match rq with
  | Join userId transactionCode now newId =>
    join users found userId transactionCode now newId io
  | Approve requestId reqUser =>
    approveRequest users found requestId reqUser io
  | Reject requestId reqUser => rejectRequest users found requestId reqUser io
  | Leave reqUser => leave found reqUser
  end.

(** The stored document after a handler ran: the saved one, or the old one
    when nothing was saved. *)
Definition commit (event : Event) (o : Outcome) : Event :=
  default event (saved o).

Definition serve (users : string → option string) (io : bool)
    (event : Event) (rq : Request) : Event :=
  commit event (handle users io rq (Some event)).

Definition serve_all (users : string → option string) (io : bool)
    (event : Event) (rqs : list Request) : Event :=
  foldl (serve users io) event rqs.

End Store.
Export Store.

(** ** The error taxonomy, as the responses the handlers send *)

Module Errors.

Definition error (c : Z) (msg : string) : Response :=
  {| code := c; body := ErrorBody msg |}.

Definition AlreadyJoined : Response :=
  error 400 "You have already joined this event".
Definition CapacityExceeded : Response :=
  error 400 "Event is at full capacity".
Definition PaymentRequired (amount : Z) (currency : string) : Response :=
  {| code := 400;
     body := PaymentErrorBody "Transaction code is required for paid events"
               (Some amount) (Some currency) |}.
Definition DuplicateRequest : Response :=
  error 400 "You already have a pending join request".
Definition AlreadyProcessed : Response :=
  error 400 "Request already processed".
Definition NotAParticipant : Response :=
  error 400 "Not a participant".

(** The two success responses of the join route. *)
Definition Joined (event' : Event) : Response :=
  {| code := 200;
     body := JoinBody true "Successfully joined event!" event' false |}.

End Errors.
Export Errors.

(** ** Predicates on the stored document *)

Module Ledger.

(** [0 <= capacity.current <= capacity.max]. *)
Definition capacity_bound (e : Event) : Prop :=
  match capacity e with
  | Some c =>
    match max c with
    | Some m => 0 ≤ current c ≤ m
    | None => False
    end
  | None => False
  end.

(** [capacity.current] equals the number of participants. *)
Definition current_is_count (e : Event) : Prop :=
  match capacity e with
  | Some c => current c = Z.of_nat (length (participants e))
  | None => False
  end.

(** [capacity.max] is set and at least 1. *)
Definition max_positive (e : Event) : Prop :=
  match capacity e ≫= max with
  | Some m => 1 ≤ m
  | None => False
  end.

(** The three together are stable under the four routes. *)
Definition consistent (e : Event) : Prop :=
  capacity_bound e ∧ current_is_count e ∧ max_positive e.

(** The capacity field is absent, or its [max] is absent or zero. *)
Definition limit_unset (e : Event) : Prop :=
  match capacity e with
  | Some c => max c = None ∨ max c = Some 0
  | None => True
  end.

(** The number of pending join requests of [userId]. *)
Definition pending_count (userId : string) (e : Event) : nat :=
  length (filter (λ r, user r = userId ∧ status r = pending) (joinRequests e)).

(** How one join request may differ between two versions of the stored
    document: a processed request is frozen, and a change of status starts
    from pending and ends in approved or rejected. *)
Definition evolves (r r' : JoinRequest) : Prop :=
  _id r' = _id r ∧ user r' = user r ∧
  (status r ≠ pending → r' = r) ∧
  (status r' ≠ status r →
   status r = pending ∧ (status r' = approved ∨ status r' = rejected)).

(** The three ways a handler can touch [event.joinRequests]: leave it,
    push a pending request for a user who has none pending, or settle a
    pending request in place. *)
Inductive requests_change (rs : list JoinRequest) : list JoinRequest → Prop :=
| requests_kept : requests_change rs rs
| request_pushed new :
    status new = pending →
    (∀ r, r ∈ rs → user r = user new → status r ≠ pending) →
    requests_change rs (rs ++ [new])
| request_settled i request s :
    rs !! i = Some request → status request = pending → s ≠ pending →
    requests_change rs (<[i := set_status s request]> rs).

End Ledger.
Export Ledger.

(** ** Concrete documents used in the examples below *)

Module Samples.

Definition blank : Event :=
  {| eventId := "e1"; title := "Sunday run"; organizer := "org";
     capacity := Some {| current := 0; max := Some 5 |};
     participants := []; waitlist := []; joinRequests := [];
     requiresApproval := false; pricing := None |}.

Definition with_capacity (cur : Z) (m : option Z) (e : Event) : Event :=
  set_capacity (Some {| current := cur; max := m |}) e.

Definition gated (e : Event) : Event :=
  {| eventId := eventId e; title := title e; organizer := organizer e;
     capacity := capacity e; participants := participants e;
     waitlist := waitlist e; joinRequests := joinRequests e;
     requiresApproval := true; pricing := pricing e |}.

Definition priced (a : Z) (cur : string) (e : Event) : Event :=
  {| eventId := eventId e; title := title e; organizer := organizer e;
     capacity := capacity e; participants := participants e;
     waitlist := waitlist e; joinRequests := joinRequests e;
     requiresApproval := requiresApproval e;
     pricing := Some {| type := paid; amount := a; currency := cur |} |}.

(** A users collection in which every user has a document. *)
Definition profile (u : string) : option string :=
  Some ("{ _id: " ++ u ++ " }")%string.

(** A users collection that has lost every document. *)
Definition nobody (u : string) : option string := None.

Definition request (rid uid : string) (s : RequestStatus) : JoinRequest :=
  {| _id := rid; user := uid; transactionCode := "FREE"; requestedAt := 0;
     status := s |}.

(** A free event whose [capacity.max] is 0 and that nobody joined yet. *)
Definition zero_max : Event := with_capacity 0 (Some 0) blank.

(** One participant recorded, but [capacity.current] still 0. *)
Definition stale_count : Event :=
  set_participants ["a"] (with_capacity 0 (Some 5) blank).

(** Two of two places taken. *)
Definition two_of_two : Event :=
  set_participants ["U1"; "U2"] (with_capacity 2 (Some 2) blank).

(** The leave scenario: waitlist [A, B], participants [U1, U2]. *)
Definition with_waitlist : Event := set_waitlist ["A"; "B"] two_of_two.

(** An approval-gated event with one place, taken by [b], while [a] still
    has a pending request. *)
Definition full_gated : Event :=
  set_joinRequests [request "r1" "a" pending; request "r2" "b" approved]
    (set_participants ["b"] (with_capacity 1 (Some 1) (gated blank))).

(** An approval-gated event with room left and a pending request of [a]. *)
Definition open_gated : Event :=
  set_joinRequests [request "r1" "a" pending]
    (with_capacity 0 (Some 5) (gated blank)).

(** The payment scenario: capacity [{current: 1, max: 5}], approval
    required, paid. *)
Definition paid_gated : Event :=
  priced 20 "USD"
    (set_participants ["a"] (with_capacity 1 (Some 5) (gated blank))).

(** A free, open event with one of five places taken. *)
Definition one_of_five : Event :=
  set_participants ["a"] (with_capacity 1 (Some 5) blank).

(** A document without a capacity field. *)
Definition no_capacity : Event := set_capacity None blank.

End Samples.

(** ** The events collection *)

Module Collection.

(** The body of the delete route's answers: [{ error }] or [{ message }]. *)
Inductive DeleteBody :=
| DeleteError (error : string)
| DeleteMessage (message : string).

(** [DELETE /events/:id] for a well-formed [id] (a string that is no
    object id makes [Event.findById] throw, and the route then answers 500
    with the collection as it was).  [Event.findById] is a lookup in the
    collection, [Event.findByIdAndDelete] removes the key.  Returns the
    status code, the body and the collection afterwards. *)
Definition deleteEvent (db : gmap string Event) (id reqUser : string)
    : Z * DeleteBody * gmap string Event :=
  match db !! id with
  | None => (404, DeleteError "Event not found", db)
  | Some event =>
    if decide (organizer event ≠ reqUser) then
      (403, DeleteError "Not authorized", db)
    else (200, DeleteMessage "Event deleted successfully", delete id db)
  end.

(** One of the four workflow routes called with [:id]: the handler runs on
    [Event.findById(id)]. *)
Definition route (users : string → option string) (io : bool)
    (db : gmap string Event) (id : string) (rq : Request) : Outcome :=
  handle users io rq (db !! id).

End Collection.
Export Collection.

(** ** The earlier join route

    The earlier revision of the routes file has the same leave route and a
    join route that puts the caller on the waitlist of a full event. *)

Module Legacy.

(** [POST /events/:id/join] of the earlier revision.  [reqUser] is
    [req.user.id].  Reading [event.capacity.current] of a missing capacity
    throws and the handler's [catch] answers 500. *)
Definition joinLegacy (found : option Event) (reqUser : string) : Outcome :=
  match found with
  | None => fail 404 "Event not found"
  | Some event =>
    if decide (reqUser ∈ participants event) then
      fail 400 "Already joined this event"
    else
      match capacity event with
      | None => fail 500 "Failed to join event"
      | Some c =>
        if JS.ge (current c) (max c) then
          if decide (reqUser ∉ waitlist event) then
            let event' := set_waitlist (waitlist event ++ [reqUser]) event in
            {| response :=
                 {| code := 200;
                    body := MessageBody "Added to waitlist" event' |};
               saved := Some event';
               emitted := None |}
          else fail 400 "Event is full and waitlist full"
        else
          let event' :=
            set_capacity (Some (set_current (current c + 1) c))
              (set_participants (participants event ++ [reqUser]) event) in
          {| response := {| code := 200; body := EventBody event' |};
             saved := Some event';
             emitted := None |}
      end
  end.

(** The two routes of the earlier revision that change the roster. *)
Inductive LegacyRequest :=
| LegacyJoin (reqUser : string)
| LegacyLeave (reqUser : string).

Definition handleLegacy (rq : LegacyRequest) (found : option Event) : Outcome :=
  match rq with
  | LegacyJoin reqUser => joinLegacy found reqUser
  | LegacyLeave reqUser => leave found reqUser
  end.

Definition serveLegacy (event : Event) (rq : LegacyRequest) : Event :=
  commit event (handleLegacy rq (Some event)).

Definition serveLegacy_all (event : Event) (rqs : list LegacyRequest) : Event :=
  foldl serveLegacy event rqs.

End Legacy.
Export Legacy.

(** ** Predicates on the roster *)

Module Roster.

(** Nobody is listed twice among the participants, nobody waits, nobody has
    two pending requests, and a pending request belongs to an
    approval-gated event and to a user who is not a participant. *)
Definition tidy (e : Event) : Prop :=
  NoDup (participants e) ∧
  waitlist e = [] ∧
  (∀ u, pending_count u e ≤ 1)%nat ∧
  (∀ r, r ∈ joinRequests e → status r = pending →
        requiresApproval e = true ∧ user r ∉ participants e).

(** The check [event.capacity.current >= event.capacity.max] of the
    approve route and of the earlier join route. *)
Definition full (e : Event) : bool :=
  match capacity e with
  | Some c => JS.ge (current c) (max c)
  | None => false
  end.

(** Participants and waitlist together list nobody twice, and somebody
    waits only while the event is full. *)
Definition queued (e : Event) : Prop :=
  NoDup (participants e ++ waitlist e) ∧
  (waitlist e ≠ [] → full e = true).

End Roster.
Export Roster.

(** * Properties *)

(** ** Auxiliary facts *)

Lemma maxCapacity_some e c m :
  capacity e = Some c → max c = Some m → m ≠ 0 → maxCapacity e = m.
Proof.
  intros Hc Hm Hne. unfold maxCapacity. rewrite Hc. simpl. rewrite Hm. simpl.
  by case_decide.
Qed.

Lemma consistent_inv e :
  consistent e →
  ∃ c m, capacity e = Some c ∧ max c = Some m ∧ 1 ≤ m ∧
         0 ≤ current c ≤ m ∧ current c = Z.of_nat (length (participants e)).
Proof.
  unfold consistent, capacity_bound, current_is_count, max_positive.
  destruct (capacity e) as [c|]; simpl; [|tauto].
  destruct (max c) as [m|] eqn:Hm; [|tauto].
  intros (? & ? & ?). by exists c, m.
Qed.

Lemma consistent_intro e c m :
  capacity e = Some c → max c = Some m → 1 ≤ m → 0 ≤ current c ≤ m →
  current c = Z.of_nat (length (participants e)) → consistent e.
Proof.
  intros Hc Hm ? ? ?.
  unfold consistent, capacity_bound, current_is_count, max_positive.
  rewrite Hc. simpl. rewrite Hm. done.
Qed.

(** Whatever happens to the notification, the document is saved. *)
Lemma saved_finish io e' payload ok failure :
  saved (finish io e' payload ok failure) = Some e'.
Proof. done. Qed.

Lemma response_finish io e' payload ok failure :
  io = false ∨ is_Some payload →
  response (finish io e' payload ok failure) = {| code := 200; body := ok |}.
Proof.
  unfold finish. simpl. intros [->|[n ->]]; [done|]. by destruct io.
Qed.

Lemma code_finish io e' payload ok failure :
  code (response (finish io e' payload ok failure)) = 200 ∨
  code (response (finish io e' payload ok failure)) = 500 ∧ io = true ∧
  emitted (finish io e' payload ok failure) = None.
Proof. unfold finish. simpl. repeat case_match; simpl; auto. Qed.

(** ** The capacity ledger under the four routes *)

Section ledger_steps.
Context (users : string → option string) (e e' : Event) (io : bool).
Hypothesis He : consistent e.

Lemma join_consistent userId tc now newId :
  saved (join users (Some e) userId tc now newId io) = Some e' → consistent e'.
Proof.
  destruct (consistent_inv e He) as (c & m & Hc & Hm & Hpos & Hb & Hcnt).
  unfold join. case_decide; [done|].
  rewrite (maxCapacity_some e c m) by (done || lia).
  case_decide; [done|].
  destruct (isPaid e && JS.falsy tc); [done|].
  destruct (requiresApproval e && hasPendingRequest e userId); [done|].
  unfold join_decide.
  destruct (requiresApproval e); rewrite saved_finish; intros [= <-].
  - by apply (consistent_intro _ c m).
  - simpl. rewrite Hc. simpl.
    eapply (consistent_intro _ _ m); simpl; try done.
    rewrite length_app. simpl. lia.
Qed.

Lemma approve_consistent requestId reqUser :
  saved (approveRequest users (Some e) requestId reqUser io) = Some e' →
  consistent e'.
Proof.
  destruct (consistent_inv e He) as (c & m & Hc & Hm & Hpos & Hb & Hcnt).
  unfold approveRequest. case_decide; [done|].
  destruct (list_find _ _) as [[i request]|]; [|done].
  case_decide; [done|]. rewrite Hc. unfold JS.ge. rewrite Hm.
  case_bool_decide; [done|]. rewrite saved_finish. intros [= <-].
  apply (consistent_intro _ (set_current (current c + 1) c) m);
    simpl; try done; [lia|].
  rewrite length_app. simpl. lia.
Qed.

Lemma reject_consistent requestId reqUser :
  saved (rejectRequest users (Some e) requestId reqUser io) = Some e' →
  consistent e'.
Proof.
  destruct (consistent_inv e He) as (c & m & Hc & Hm & Hpos & Hb & Hcnt).
  unfold rejectRequest. case_decide; [done|].
  destruct (list_find _ _) as [[i request]|]; [|done].
  case_decide; [done|]. rewrite saved_finish. intros [= <-].
  by apply (consistent_intro _ c m).
Qed.

Lemma leave_consistent reqUser :
  saved (leave (Some e) reqUser) = Some e' → consistent e'.
Proof.
  destruct (consistent_inv e He) as (c & m & Hc & Hm & Hpos & Hb & Hcnt).
  unfold leave.
  destruct (list_find _ _) as [[index p]|] eqn:Hfind; [|done].
  apply list_find_Some in Hfind as (Hlook & _ & _).
  assert (Hlen : length (delete index (participants e))
                 = (length (participants e) - 1)%nat)
    by (apply length_delete; eauto).
  assert (0 < length (participants e))%nat
    by (apply lookup_lt_Some in Hlook; lia).
  rewrite Hc. destruct (waitlist e) as [|nextUser rest]; simpl; intros [= <-].
  - apply (consistent_intro _ (set_current (current c - 1) c) m);
      simpl; try done; lia.
  - apply (consistent_intro _ (set_current (current c - 1 + 1) c) m);
      simpl; try done; [lia|].
    rewrite length_app. simpl. lia.
Qed.

Lemma handle_consistent rq :
  saved (handle users io rq (Some e)) = Some e' → consistent e'.
Proof.
  destruct rq; simpl;
    eauto using join_consistent, approve_consistent, reject_consistent,
      leave_consistent.
Qed.
End ledger_steps.

Lemma serve_consistent users io rq e :
  consistent e → consistent (serve users io e rq).
Proof.
  intros He. unfold serve, commit.
  destruct (saved _) as [e'|] eqn:Hs; simpl; eauto using handle_consistent.
Qed.

(** The ledger stays consistent along any sequence of requests. *)
Lemma serve_all_consistent users io rqs e :
  consistent e → consistent (serve_all users io e rqs).
Proof.
  revert e. induction rqs as [|rq rqs IH]; intros e He; simpl; [done|].
  apply IH, serve_consistent, He.
Qed.

(** Why [capacity.max] has to be positive, as the data model says it is.
    On a document with [capacity = {current: 0, max: 0}] and no
    participants the join route takes [0 || 1000] as the limit, admits the
    user and saves [current = 1] above [max = 0]. *)
Lemma capacity_bound_lost_at_zero_max :
  capacity_bound Samples.zero_max ∧
  current_is_count Samples.zero_max ∧
  ∃ e', saved (handle Samples.profile false (Join "u" None 0 "r1")
                 (Some Samples.zero_max))
          = Some e' ∧
        capacity e' = Some {| current := 1; max := Some 0 |} ∧
        ¬ capacity_bound e'.
Proof.
  split; [vm_compute; split; discriminate|]. split; [reflexivity|].
  eexists. split; [vm_compute; reflexivity|]. split; [reflexivity|].
  vm_compute. intros [_ H]. by apply H.
Qed.

(** C1: capacity-bound invariant.  For every event state
    ([capacity.max] being a positive integer, as the data model has it)
    that satisfies [0 <= capacity.current <= capacity.max] with
    [capacity.current] equal to the number of participants, every
    committed transition of join, approve-request, reject-request and leave
    saves a document that still satisfies
    [0 <= capacity.current <= capacity.max]. *)
Theorem capacity_bound_preserved users io rq e e' :
  capacity_bound e → current_is_count e → max_positive e →
  saved (handle users io rq (Some e)) = Some e' →
  capacity_bound e'.
Proof.
  intros Hb Hc Hm Hs.
  by destruct (handle_consistent users e e' io (conj Hb (conj Hc Hm)) rq Hs).
Qed.

Lemma capacity_bound_preserved_witness :
  capacity_bound
    (set_participants ["a"; "b"] (Samples.with_capacity 2 (Some 5) Samples.blank)).
Proof.
  apply (capacity_bound_preserved Samples.profile false (Join "b" None 0 "r1")
           Samples.one_of_five).
  - vm_compute. split; discriminate.
  - reflexivity.
  - vm_compute. discriminate.
  - reflexivity.
Defined.

(** ** The join route, check by check *)

Section join_checks.
Context (users : string → option string) (e : Event) (userId : string)
        (tc : option string) (now : Z) (newId : string) (io : bool).

Let count := Z.of_nat (length (participants e)).

Lemma join_already :
  userId ∈ participants e →
  join users (Some e) userId tc now newId io
  = fail 400 "You have already joined this event".
Proof. intros. unfold join. by case_decide. Qed.

Lemma join_full :
  userId ∉ participants e → maxCapacity e ≤ count →
  join users (Some e) userId tc now newId io
  = fail 400 "Event is at full capacity".
Proof. intros. unfold join. by repeat case_decide. Qed.

Lemma join_unpaid :
  userId ∉ participants e → count < maxCapacity e →
  isPaid e && JS.falsy tc = true →
  join users (Some e) userId tc now newId io
  = reply 400
      (PaymentErrorBody "Transaction code is required for paid events"
         (amount <$> pricing e) (currency <$> pricing e)).
Proof.
  intros ? ? Hp. unfold join. repeat case_decide; try done; try lia.
  by rewrite Hp.
Qed.

Lemma join_duplicate :
  userId ∉ participants e → count < maxCapacity e →
  isPaid e && JS.falsy tc = false →
  requiresApproval e && hasPendingRequest e userId = true →
  join users (Some e) userId tc now newId io
  = fail 400 "You already have a pending join request".
Proof.
  intros ? ? Hp Hd. unfold join. repeat case_decide; try done; try lia.
  by rewrite Hp, Hd.
Qed.

Lemma join_admitted :
  userId ∉ participants e → count < maxCapacity e →
  isPaid e && JS.falsy tc = false →
  requiresApproval e && hasPendingRequest e userId = false →
  join users (Some e) userId tc now newId io
  = join_decide users e userId tc now newId io.
Proof.
  intros ? ? Hp Hd. unfold join. repeat case_decide; try done; try lia.
  by rewrite Hp, Hd.
Qed.
End join_checks.

Lemma hasPendingRequest_true e userId :
  hasPendingRequest e userId = true ↔
  ∃ r, r ∈ joinRequests e ∧ user r = userId ∧ status r = pending.
Proof.
  unfold hasPendingRequest.
  rewrite bool_decide_eq_true, Exists_exists. naive_solver.
Qed.

(** The same remark for the capacity check: with [capacity.max = 0],
    outside the data model, the limit used is [0 || 1000], so that the
    check passes and, the event requiring approval, a pending join request
    is created and saved. *)
Lemma zero_max_event_takes_request :
  let e := Samples.gated Samples.zero_max in
  (capacity e = Some {| current := 0; max := Some 0 |} ∧
   Z.of_nat (length (participants e)) = 0 ∧
   ("u" ∉ participants e) ∧
   response (join Samples.profile (Some e) "u" None 0 "r1" false)
     ≠ CapacityExceeded ∧
   ∃ e', saved (join Samples.profile (Some e) "u" None 0 "r1" false)
           = Some e' ∧
         joinRequests e' = [Samples.request "r1" "u" pending]).
Proof.
  simpl. split_and!; [done|done|compute_done|by vm_compute|].
  eexists. split; by vm_compute.
Qed.

(** C2: for every event whose participants count equals [capacity.max]
    (a positive integer, as the data model has it) and every user not
    already in participants, the join route fails with CapacityExceeded
    whatever [requiresApproval] (and pricing and transaction code) may be,
    and saves nothing: no pending join request is created, the capacity
    check coming before the approval branch. *)
Theorem full_event_rejects_join users e c m userId tc now newId io :
  capacity e = Some c → max c = Some m → 1 ≤ m →
  Z.of_nat (length (participants e)) = m →
  userId ∉ participants e →
  response (join users (Some e) userId tc now newId io) = CapacityExceeded ∧
  saved (join users (Some e) userId tc now newId io) = None.
Proof.
  intros Hc Hm Hpos Hcnt Hin.
  rewrite join_full; [done|done|].
  rewrite (maxCapacity_some e c m) by (done || lia). lia.
Qed.

Lemma full_event_rejects_join_witness :
  response (join Samples.profile (Some (Samples.gated Samples.two_of_two))
              "userX" None 0 "r1" true)
  = CapacityExceeded ∧
  saved (join Samples.profile (Some (Samples.gated Samples.two_of_two))
           "userX" None 0 "r1" true)
  = None.
Proof.
  apply (full_event_rejects_join _ _ {| current := 2; max := Some 2 |} 2).
  - reflexivity.
  - reflexivity.
  - lia.
  - reflexivity.
  - compute_done.
Defined.

(** C4, as stated, fails.  The join route does not add 1 to
    [capacity.current]; it overwrites it with the new participants count.
    On a document with one participant whose [capacity.current] is still 0
    a successful join moves [current] from 0 to 2. *)
Lemma join_overwrites_stale_current :
  let e := Samples.stale_count in
  (requiresApproval e = false ∧
   capacity e = Some {| current := 0; max := Some 5 |} ∧
   Z.of_nat (length (participants e)) < 5 ∧
   ("b" ∉ participants e) ∧
   ∃ e', saved (join Samples.profile (Some e) "b" None 0 "r1" false)
           = Some e' ∧
         response (join Samples.profile (Some e) "b" None 0 "r1" false)
           = Joined e' ∧
         capacity e' = Some {| current := 2; max := Some 5 |}).
Proof.
  simpl. split_and!; [done|done|done|compute_done|].
  eexists. split_and!; by vm_compute.
Qed.

(** What the join route saves and answers once the four checks are
    passed.  The answer is the success one whenever the notification can
    be built: the socket server is not set, or the organizer's user
    document exists. *)
Lemma join_decide_open users e userId tc now newId io :
  requiresApproval e = false →
  ∃ e',
    e' = set_capacity
           (set_current (Z.of_nat (length (participants e ++ [userId])))
              <$> capacity e)
           (set_participants (participants e ++ [userId]) e) ∧
    saved (join_decide users e userId tc now newId io) = Some e' ∧
    (io = false ∨ is_Some (users (organizer e)) →
     response (join_decide users e userId tc now newId io) = Joined e').
Proof.
  intros Hr. unfold join_decide. rewrite Hr. eexists. split; [reflexivity|].
  rewrite saved_finish. split; [done|]. intros Hn.
  apply response_finish. destruct Hn as [?|[d Hd]]; [by left|right].
  simpl. rewrite Hd. by eexists.
Qed.


(** C4 (amended): for every event with [requiresApproval = false],
    participants count strictly below [capacity.max], and a user not
    already in participants (with any required transaction code present),
    the join route saves the event with exactly that user appended to
    participants and [capacity.current] set to the new participants count
    -- an increment by exactly 1 whenever [capacity.current] equalled the
    participants count before the call -- and answers Joined whenever the
    notification can be built (no socket server set, or the organizer's
    user document exists). *)
Theorem join_immediate users e c m userId tc now newId io :
  requiresApproval e = false →
  capacity e = Some c → max c = Some m →
  Z.of_nat (length (participants e)) < m →
  userId ∉ participants e →
  isPaid e && JS.falsy tc = false →
  ∃ e',
    saved (join users (Some e) userId tc now newId io) = Some e' ∧
    (io = false ∨ is_Some (users (organizer e)) →
     response (join users (Some e) userId tc now newId io) = Joined e') ∧
    participants e' = (participants e ++ [userId])%list ∧
    current <$> capacity e'
      = Some (Z.of_nat (length (participants e)) + 1) ∧
    (current_is_count e → current <$> capacity e' = Some (current c + 1)).
Proof.
  intros Hr Hc Hm Hlt Hin Hp.
  rewrite join_admitted; try done.
  - destruct (join_decide_open users e userId tc now newId io Hr)
      as (e' & -> & Hs & Hresp).
    eexists. split; [exact Hs|]. split; [exact Hresp|].
    simpl. rewrite Hc. simpl. split_and!; [done| |].
    + rewrite length_app. simpl. do 2 f_equal. lia.
    + unfold current_is_count. rewrite Hc. intros ->.
      rewrite length_app. simpl. do 2 f_equal. lia.
  - rewrite (maxCapacity_some e c m) by (done || lia). lia.
  - by rewrite Hr.
Qed.

Lemma join_immediate_witness :
  ∃ e',
    saved (join Samples.profile (Some Samples.one_of_five) "b" None 0 "r1" true)
      = Some e' ∧
    (true = false ∨ is_Some (Samples.profile "org") →
     response
       (join Samples.profile (Some Samples.one_of_five) "b" None 0 "r1" true)
     = Joined e') ∧
    participants e' = ["a"; "b"] ∧
    current <$> capacity e' = Some 2 ∧
    (current_is_count Samples.one_of_five →
     current <$> capacity e' = Some 2).
Proof.
  apply (join_immediate Samples.profile Samples.one_of_five
           {| current := 1; max := Some 5 |} 5).
  - reflexivity.
  - reflexivity.
  - reflexivity.
  - simpl. lia.
  - compute_done.
  - reflexivity.
Defined.

(** C7: for every paid event and every join call without a transaction
    code (absent or empty), made by a user not already a participant while
    the participants count is below the capacity limit, the join route
    fails with PaymentRequired carrying [event.pricing.amount] and
    [event.pricing.currency], and saves nothing. *)
Theorem paid_join_needs_code users e p userId tc now newId io :
  pricing e = Some p → type p = paid →
  JS.falsy tc = true →
  userId ∉ participants e →
  Z.of_nat (length (participants e)) < maxCapacity e →
  response (join users (Some e) userId tc now newId io)
    = PaymentRequired (amount p) (currency p) ∧
  saved (join users (Some e) userId tc now newId io) = None.
Proof.
  intros Hp Ht Hf Hin Hlt.
  rewrite join_unpaid; try done.
  - by rewrite Hp.
  - unfold isPaid. rewrite Hp, Hf. by rewrite bool_decide_eq_true_2.
Qed.

(** The scenario of the specification: capacity [{current: 1, max: 5}],
    [requiresApproval = true], paid, no transaction code. *)
Lemma paid_join_needs_code_witness :
  response (join Samples.profile (Some Samples.paid_gated) "u" None 0 "r1" true)
    = PaymentRequired 20 "USD" ∧
  saved (join Samples.profile (Some Samples.paid_gated) "u" None 0 "r1" true)
    = None.
Proof.
  apply (paid_join_needs_code Samples.profile Samples.paid_gated
           {| type := paid; amount := 20; currency := "USD" |}).
  - reflexivity.
  - reflexivity.
  - reflexivity.
  - compute_done.
  - vm_compute. reflexivity.
Defined.

(** C8, as stated, fails: requiresApproval = false and spare capacity do
    not make the first call answer Joined.  A paid event called without a
    transaction code answers PaymentRequired, and a user who is already a
    participant gets AlreadyJoined on the first call. *)
Lemma first_join_not_always_joined :
  let e := Samples.priced 20 "USD" Samples.one_of_five in
  (requiresApproval e = false ∧
   Z.of_nat (length (participants e)) < maxCapacity e ∧
   response (join Samples.profile (Some e) "u" None 0 "r1" false)
     = PaymentRequired 20 "USD" ∧
   response
     (join Samples.profile (Some Samples.one_of_five) "a" None 0 "r1" false)
     = AlreadyJoined ∧
   ∀ e', PaymentRequired 20 "USD" ≠ Joined e' ∧ AlreadyJoined ≠ Joined e').
Proof.
  simpl. split_and!; try by vm_compute.
Qed.

(** C8 (amended): for every event with [requiresApproval = false] and
    spare capacity, and every user not yet in participants who supplies a
    transaction code when the event is paid, the first of two join calls
    for the same (event, user) saves the event with the user admitted, and
    answers Joined whenever the notification can be built (no socket
    server set, or the organizer's user document exists); the second call
    then answers AlreadyJoined and saves nothing: the stored event is
    unchanged. *)
Theorem join_twice users e userId tc now newId io users' tc' now' newId' io' :
  requiresApproval e = false →
  Z.of_nat (length (participants e)) < maxCapacity e →
  userId ∉ participants e →
  isPaid e && JS.falsy tc = false →
  ∃ e',
    saved (join users (Some e) userId tc now newId io) = Some e' ∧
    (io = false ∨ is_Some (users (organizer e)) →
     response (join users (Some e) userId tc now newId io) = Joined e') ∧
    response (join users' (Some e') userId tc' now' newId' io')
      = AlreadyJoined ∧
    saved (join users' (Some e') userId tc' now' newId' io') = None ∧
    serve users' io' e' (Join userId tc' now' newId') = e'.
Proof.
  intros Hr Hlt Hin Hp.
  rewrite join_admitted by (done || by rewrite Hr).
  destruct (join_decide_open users e userId tc now newId io Hr)
    as (e' & He' & Hs & Hresp).
  exists e'. split; [exact Hs|]. split; [exact Hresp|].
  unfold serve, commit, handle.
  rewrite join_already; [done|].
  subst e'. simpl. apply elem_of_app. right. by apply list_elem_of_singleton.
Qed.

Lemma join_twice_witness :
  ∃ e',
    saved (join Samples.profile (Some Samples.one_of_five) "b" None 0 "r1" true)
      = Some e' ∧
    (true = false ∨ is_Some (Samples.profile "org") →
     response
       (join Samples.profile (Some Samples.one_of_five) "b" None 0 "r1" true)
     = Joined e') ∧
    response (join Samples.profile (Some e') "b" None 1 "r2" true)
      = AlreadyJoined ∧
    saved (join Samples.profile (Some e') "b" None 1 "r2" true) = None ∧
    serve Samples.profile true e' (Join "b" None 1 "r2") = e'.
Proof.
  apply (join_twice Samples.profile Samples.one_of_five).
  - reflexivity.
  - vm_compute. reflexivity.
  - compute_done.
  - reflexivity.
Defined.

(** C10: for every event whose capacity field is absent, or whose
    [capacity.max] is absent or zero, the join route takes 1000 as the
    capacity limit: a call that reaches the capacity check (the user is not
    already a participant) is rejected as full exactly when the
    participants count is at least 1000. *)
Theorem default_limit_is_1000 users e userId tc now newId io :
  limit_unset e →
  maxCapacity e = 1000 ∧
  (userId ∉ participants e →
   (response (join users (Some e) userId tc now newId io) = CapacityExceeded
    ↔ 1000 ≤ Z.of_nat (length (participants e)))).
Proof.
  intros Hu.
  assert (Hmax : maxCapacity e = 1000).
  { unfold maxCapacity, limit_unset in *.
    destruct (capacity e) as [c|]; simpl; [|done].
    by destruct Hu as [-> | ->]. }
  split; [done|]. intros Hin. split.
  - intros Hresp.
    destruct (decide (1000 ≤ Z.of_nat (length (participants e)))) as [|Hlt];
      [done|exfalso].
    revert Hresp. unfold join. case_decide; [done|].
    rewrite Hmax. case_decide; [done|].
    destruct (isPaid e && JS.falsy tc); [done|].
    destruct (requiresApproval e && hasPendingRequest e userId); [done|].
    unfold join_decide, finish. by repeat case_match.
  - intros Hge. rewrite join_full; [done|done|]. by rewrite Hmax.
Qed.

Lemma default_limit_is_1000_witness :
  maxCapacity Samples.no_capacity = 1000 ∧
  maxCapacity Samples.zero_max = 1000 ∧
  maxCapacity (Samples.with_capacity 0 None Samples.blank) = 1000.
Proof.
  split_and!.
  - apply (default_limit_is_1000 Samples.profile Samples.no_capacity
             "u" None 0 "r1" false).
    exact I.
  - apply (default_limit_is_1000 Samples.profile Samples.zero_max
             "u" None 0 "r1" false).
    right. reflexivity.
  - apply (default_limit_is_1000 Samples.profile
             (Samples.with_capacity 0 None Samples.blank)
             "u" None 0 "r1" false).
    left. reflexivity.
Defined.

(** C6, as stated, fails.  The duplicate test is the fourth check of the
    join route.  On an approval-gated event whose single place has been
    taken, the user whose request is still pending is told that the event
    is full, not that the request is a duplicate. *)
Lemma pending_requester_sees_full :
  let e := Samples.full_gated in
  (requiresApproval e = true ∧
   Samples.request "r1" "a" pending ∈ joinRequests e ∧
   response (join Samples.profile (Some e) "a" None 0 "r3" false)
     = CapacityExceeded ∧
   CapacityExceeded ≠ DuplicateRequest).
Proof.
  simpl. split_and!; [done|constructor|by vm_compute|done].
Qed.

(** C6 (amended): for every event with [requiresApproval = true] and
    every user who already has a pending join request on it, a further
    join call by that user saves nothing, so no second pending request is
    created; it fails with DuplicateRequest whenever the three earlier
    checks pass, i.e. the user is not a participant, the participants
    count is below the capacity limit and, on a paid event, a transaction
    code is supplied.  Otherwise it fails with the error of the first
    check that does not pass: AlreadyJoined, CapacityExceeded or
    PaymentRequired. *)
Theorem pending_requester_rejoin users e r userId tc now newId io :
  requiresApproval e = true →
  r ∈ joinRequests e → user r = userId → status r = pending →
  let o := join users (Some e) userId tc now newId io in
  saved o = None ∧
  (userId ∈ participants e → response o = AlreadyJoined) ∧
  (userId ∉ participants e →
   maxCapacity e ≤ Z.of_nat (length (participants e)) →
   response o = CapacityExceeded) ∧
  (userId ∉ participants e →
   Z.of_nat (length (participants e)) < maxCapacity e →
   isPaid e && JS.falsy tc = true →
   ∃ p, pricing e = Some p ∧
        response o = PaymentRequired (amount p) (currency p)) ∧
  (userId ∉ participants e →
   Z.of_nat (length (participants e)) < maxCapacity e →
   isPaid e && JS.falsy tc = false →
   response o = DuplicateRequest).
Proof.
  intros Hr Hel Hu Hs o.
  assert (Hdup : requiresApproval e && hasPendingRequest e userId = true).
  { rewrite Hr. simpl. apply hasPendingRequest_true. eauto. }
  split_and!.
  - subst o. unfold join. case_decide; [done|]. case_decide; [done|].
    destruct (isPaid e && JS.falsy tc); [done|]. by rewrite Hdup.
  - intros. subst o. by rewrite join_already.
  - intros. subst o. by rewrite join_full.
  - intros ? ? Hp. subst o. rewrite join_unpaid by done.
    unfold isPaid in Hp. destruct (pricing e) as [p|]; [|done].
    by exists p.
  - intros. subst o. by rewrite join_duplicate.
Qed.

Lemma pending_requester_rejoin_witness :
  response (join Samples.profile (Some Samples.open_gated) "a" None 7 "r2" true)
  = DuplicateRequest.
Proof.
  apply (pending_requester_rejoin Samples.profile Samples.open_gated
           (Samples.request "r1" "a" pending) "a" None 7 "r2" true).
  - reflexivity.
  - constructor.
  - reflexivity.
  - reflexivity.
  - compute_done.
  - vm_compute. reflexivity.
  - reflexivity.
Defined.

(** ** Leaving an event *)

Lemma list_find_first (l1 l2 : list string) (x : string) :
  x ∉ l1 → list_find (λ p, p = x) (l1 ++ x :: l2) = Some (length l1, x).
Proof.
  intros Hnin. apply list_find_Some. split_and!.
  - by rewrite list_lookup_middle.
  - done.
  - intros j y Hj Hlt ->. apply Hnin.
    rewrite lookup_app_l in Hj by done.
    by eapply list_elem_of_lookup_2.
Qed.

Lemma leave_not_participant e reqUser :
  reqUser ∉ participants e → leave (Some e) reqUser = fail 400 "Not a participant".
Proof.
  intros Hnin. unfold leave.
  destruct (list_find _ _) as [[i p]|] eqn:Hfind; [|done].
  apply list_find_Some in Hfind as (Hl & -> & _).
  destruct Hnin. by eapply list_elem_of_lookup_2.
Qed.

Lemma leave_participant e reqUser before after c :
  participants e = (before ++ reqUser :: after)%list → reqUser ∉ before →
  capacity e = Some c →
  ∃ e',
    leave (Some e) reqUser
    = {| response := {| code := 200; body := EventBody e' |};
         saved := Some e'; emitted := None |} ∧
    joinRequests e' = joinRequests e ∧
    match waitlist e with
    | nextUser :: rest =>
      participants e' = (before ++ after ++ [nextUser])%list ∧
      waitlist e' = rest ∧ capacity e' = Some c
    | [] =>
      participants e' = (before ++ after)%list ∧ waitlist e' = [] ∧
      capacity e' = Some (set_current (current c - 1) c)
    end.
Proof.
  intros Hps Hnin Hc. unfold leave.
  rewrite Hps, list_find_first, delete_middle, Hc by done.
  eexists. split; [reflexivity|].
  destruct (waitlist e) as [|nextUser rest] eqn:Hw; simpl.
  - by rewrite Hw.
  - split_and!; try done.
    + by rewrite <-app_assoc.
    + destruct c as [cur m]. unfold set_current. simpl. do 2 f_equal. lia.
Qed.

(** C3: the leave route fails with NotAParticipant exactly when the user
    is absent from participants.  When the user is a participant and the
    waitlist is non-empty (on a document that has the capacity field whose
    [current] is spoken of), leave removes the user's first occurrence,
    appends exactly the head of the waitlist to participants, keeps the
    rest of the waitlist in order and leaves the capacity, hence
    [capacity.current], unchanged.  With waitlist [A, B] and participants
    [U1, U2], leave by U1 yields participants [U2, A] and
    waitlist [B]. *)
Theorem leave_promotes_waitlist_head e reqUser :
  (response (leave (Some e) reqUser) = NotAParticipant
   ↔ reqUser ∉ participants e) ∧
  (∀ c nextUser rest,
     reqUser ∈ participants e → capacity e = Some c →
     waitlist e = nextUser :: rest →
     ∃ before after e',
       participants e = (before ++ reqUser :: after)%list ∧
       (reqUser ∉ before) ∧
       saved (leave (Some e) reqUser) = Some e' ∧
       participants e' = (before ++ after ++ [nextUser])%list ∧
       waitlist e' = rest ∧
       capacity e' = Some c ∧
       joinRequests e' = joinRequests e) ∧
  (∀ c U2 A B,
     capacity e = Some c →
     participants e = [reqUser; U2] → waitlist e = [A; B] →
     ∃ e', saved (leave (Some e) reqUser) = Some e' ∧
           participants e' = [U2; A] ∧ waitlist e' = [B]).
Proof.
  split_and!.
  - split.
    + intros Hresp Hin.
      apply list_elem_of_split_l in Hin as (before & after & Hps & Hnin).
      destruct (capacity e) as [c|] eqn:Hc.
      * destruct (leave_participant e reqUser before after c)
          as (e' & Hl & _); [done..|].
        by rewrite Hl in Hresp.
      * revert Hresp. unfold leave.
        rewrite Hps, list_find_first, Hc by done. done.
    + intros Hnin. by rewrite leave_not_participant.
  - intros c nextUser rest Hin Hc Hw.
    apply list_elem_of_split_l in Hin as (before & after & Hps & Hnin).
    destruct (leave_participant e reqUser before after c)
      as (e' & Hl & Hrs & Hrest); [done..|].
    rewrite Hw in Hrest. destruct Hrest as (? & ? & ?).
    exists before, after, e'. by rewrite Hl.
  - intros c U2 A B Hc Hps Hw.
    destruct (leave_participant e reqUser [] [U2] c)
      as (e' & Hl & Hrs & Hrest); [done|apply not_elem_of_nil|done|].
    rewrite Hw in Hrest. destruct Hrest as (? & ? & ?).
    exists e'. by rewrite Hl.
Qed.

Lemma leave_promotes_waitlist_head_witness :
  ∃ e', saved (leave (Some Samples.with_waitlist) "U1") = Some e' ∧
        participants e' = ["U2"; "A"] ∧ waitlist e' = ["B"].
Proof.
  apply (leave_promotes_waitlist_head Samples.with_waitlist "U1")
    with (c := {| current := 2; max := Some 2 |}).
  - reflexivity.
  - reflexivity.
  - reflexivity.
Defined.

(** ** Processed requests *)

(** With distinct sub-document ids, [joinRequests.id] resolves the id of a
    stored request to that request. *)
Lemma find_by_id e i r :
  NoDup (_id <$> joinRequests e) → joinRequests e !! i = Some r →
  list_find (λ q, _id q = _id r) (joinRequests e) = Some (i, r).
Proof.
  intros Hnd Hi. apply list_find_Some. split_and!; [done..|].
  intros j q Hj Hlt Heq.
  assert (j = i); [|lia].
  eapply NoDup_lookup; [exact Hnd| |].
  - by rewrite list_lookup_fmap, Hj.
  - by rewrite list_lookup_fmap, Hi, Heq.
Qed.

(** C5: for every event and every join request whose status is approved
    or rejected, approve-request called by the organizer on that request
    (the one [joinRequests.id(requestId)] resolves) fails with
    AlreadyProcessed, saves nothing and emits nothing: the stored event is
    unchanged. *)
Theorem approve_processed_request users e requestId i r io :
  list_find (λ q, _id q = requestId) (joinRequests e) = Some (i, r) →
  status r = approved ∨ status r = rejected →
  response (approveRequest users (Some e) requestId (organizer e) io)
    = AlreadyProcessed ∧
  saved (approveRequest users (Some e) requestId (organizer e) io) = None ∧
  emitted (approveRequest users (Some e) requestId (organizer e) io) = None ∧
  serve users io e (Approve requestId (organizer e)) = e.
Proof.
  intros Hfind Hst. unfold serve, commit, handle, approveRequest.
  case_decide; [done|]. rewrite Hfind.
  case_decide; [done|]. destruct Hst; congruence.
Qed.

Lemma approve_processed_request_witness :
  response (approveRequest Samples.profile (Some Samples.full_gated) "r2" "org" true)
    = AlreadyProcessed ∧
  saved (approveRequest Samples.profile (Some Samples.full_gated) "r2" "org" true) = None ∧
  emitted (approveRequest Samples.profile (Some Samples.full_gated) "r2" "org" true) = None ∧
  serve Samples.profile true Samples.full_gated (Approve "r2" "org") = Samples.full_gated.
Proof.
  apply (approve_processed_request Samples.profile Samples.full_gated "r2" 1%nat
           (Samples.request "r2" "b" approved) true).
  - vm_compute. reflexivity.
  - left. reflexivity.
Defined.

(** ** Join requests over time *)

Lemma evolves_refl r : evolves r r.
Proof. unfold evolves. naive_solver. Qed.

Lemma evolves_trans r1 r2 r3 : evolves r1 r2 → evolves r2 r3 → evolves r1 r3.
Proof.
  unfold evolves. intros (Hid1 & Hu1 & Hf1 & Hc1) (Hid2 & Hu2 & Hf2 & Hc2).
  split_and!; [congruence|congruence| |].
  - intros Hs. rewrite (Hf1 Hs) in *. by apply Hf2.
  - intros Hne. destruct (decide (status r1 = pending)) as [Hp|Hp].
    + split; [done|].
      destruct (status r3) eqn:?; [congruence|by left|by right].
    + exfalso. apply Hne. rewrite (Hf1 Hp) in *. by rewrite (Hf2 Hp).
Qed.

Lemma handle_requests users io rq e e' :
  saved (handle users io rq (Some e)) = Some e' →
  requests_change (joinRequests e) (joinRequests e').
Proof.
  destruct rq as [userId tc now newId|requestId reqUser|requestId reqUser|reqUser];
    simpl.
  - unfold join. case_decide; [done|]. case_decide; [done|].
    destruct (isPaid e && JS.falsy tc); [done|].
    unfold join_decide.
    destruct (requiresApproval e); simpl; [|intros [= <-]; constructor].
    destruct (hasPendingRequest e userId) eqn:Hh; simpl; [done|].
    intros [= <-]. simpl. constructor; [done|]. simpl.
    intros r Hr Hu Hs. apply not_true_iff_false in Hh. apply Hh.
    apply hasPendingRequest_true. eauto.
  - unfold approveRequest. case_decide; [done|].
    destruct (list_find _ _) as [[i request]|] eqn:Hfind; [|done].
    apply list_find_Some in Hfind as (Hi & _ & _).
    case_decide as Hst; [done|].
    destruct (capacity e) as [c|]; [|done].
    destruct (JS.ge _ _); [done|]. simpl. intros [= <-]. simpl.
    by constructor.
  - unfold rejectRequest. case_decide; [done|].
    destruct (list_find _ _) as [[i request]|] eqn:Hfind; [|done].
    apply list_find_Some in Hfind as (Hi & _ & _).
    case_decide as Hst; [done|].
    simpl. intros [= <-]. simpl. by constructor.
  - unfold leave.
    destruct (list_find _ _) as [[index p]|]; [|done].
    destruct (capacity e) as [c|]; [|done].
    destruct (waitlist e); simpl; intros [= <-]; simpl; constructor.
Qed.

Lemma requests_change_evolves rs rs' i r :
  requests_change rs rs' → rs !! i = Some r →
  ∃ r', rs' !! i = Some r' ∧ evolves r r'.
Proof.
  intros [|new Hnew _|j request s Hj Hp Hs] Hi.
  - exists r. eauto using evolves_refl.
  - exists r. split; [by apply lookup_app_l_Some|apply evolves_refl].
  - destruct (decide (j = i)) as [->|Hne].
    + exists (set_status s request).
      rewrite list_lookup_insert_eq by (by eapply lookup_lt_Some).
      split; [done|]. rewrite Hj in Hi. injection Hi as <-.
      unfold evolves. simpl. split_and!; [done|done|congruence|].
      intros _. split; [done|]. destruct s; [done|by left|by right].
    + exists r. rewrite list_lookup_insert_ne by done.
      eauto using evolves_refl.
Qed.

Lemma serve_evolves users io rq e i r :
  joinRequests e !! i = Some r →
  ∃ r', joinRequests (serve users io e rq) !! i = Some r' ∧ evolves r r'.
Proof.
  intros Hi. unfold serve, commit.
  destruct (saved _) as [e'|] eqn:Hs; simpl.
  - eauto using requests_change_evolves, handle_requests.
  - eauto using evolves_refl.
Qed.

Lemma serve_all_evolves users io rqs e i r :
  joinRequests e !! i = Some r →
  ∃ r', joinRequests (serve_all users io e rqs) !! i = Some r' ∧ evolves r r'.
Proof.
  revert e r. induction rqs as [|rq rqs IH]; intros e r Hi; simpl.
  - eauto using evolves_refl.
  - destruct (serve_evolves users io rq e i r Hi) as (r1 & H1 & He1).
    destruct (IH _ _ H1) as (r' & H' & He').
    eauto using evolves_trans.
Qed.

(** C9: join request status is monotonic.  For every stored event (hence
    every reachable one) and every join request in it, identified by its
    position in the append-only [joinRequests] array, after any sequence
    of join, approve-request, reject-request and leave calls the request
    is still there; if its status was approved or rejected it is unchanged;
    and if its status differs from before, it was pending and is now
    approved or rejected. *)
Theorem status_monotonic users io e rqs i r :
  joinRequests e !! i = Some r →
  ∃ r', joinRequests (serve_all users io e rqs) !! i = Some r' ∧
        (status r = approved ∨ status r = rejected → r' = r) ∧
        (status r' ≠ status r →
         status r = pending ∧ (status r' = approved ∨ status r' = rejected)).
Proof.
  intros Hi.
  destruct (serve_all_evolves users io rqs e i r Hi) as (r' & H' & _ & _ & Hf & Hc).
  exists r'. split_and!; [done| |done].
  intros Hst. apply Hf. destruct Hst; congruence.
Qed.

Lemma status_monotonic_witness :
  ∃ r', joinRequests
          (serve_all Samples.profile true Samples.full_gated
             [Approve "r2" "org"; Reject "r2" "org"; Leave "b";
              Approve "r1" "org"; Reject "r1" "org"]) !! 1%nat = Some r' ∧
        (status (Samples.request "r2" "b" approved) = approved ∨
         status (Samples.request "r2" "b" approved) = rejected →
         r' = Samples.request "r2" "b" approved) ∧
        (status r' ≠ status (Samples.request "r2" "b" approved) →
         status (Samples.request "r2" "b" approved) = pending ∧
         (status r' = approved ∨ status r' = rejected)).
Proof.
  apply (status_monotonic Samples.profile true Samples.full_gated).
  reflexivity.
Defined.

(** ** At most one pending request per user *)

Lemma filter_none {A} (P : A → Prop) `{∀ x, Decision (P x)} (l : list A) :
  (∀ x, x ∈ l → ¬ P x) → filter P l = [].
Proof.
  induction l as [|x l IH]; intros Hall; [done|].
  rewrite filter_cons_False by (apply Hall; constructor).
  apply IH. intros y Hy. apply Hall. by constructor.
Qed.

Lemma requests_change_pending rs rs' (u : string) :
  requests_change rs rs' →
  (length (filter (λ r, user r = u ∧ status r = pending) rs) ≤ 1 →
   length (filter (λ r, user r = u ∧ status r = pending) rs') ≤ 1)%nat.
Proof.
  intros [|new Hnew Hnone|i request s Hi Hp Hs] Hle; [done| |].
  - rewrite filter_app, length_app, filter_cons.
    case_decide as HP; simpl; [|lia].
    destruct HP as [Hu _]. rewrite filter_none; [simpl; lia|].
    intros r Hr [Hur Hsr]. apply (Hnone r); congruence.
  - assert (i < length rs)%nat as Hlt by (by eapply lookup_lt_Some).
    rewrite insert_take_drop by done.
    rewrite <-(take_drop_middle rs i request Hi) in Hle.
    rewrite filter_app, length_app, filter_cons in Hle.
    assert (¬ (user (set_status s request) = u
               ∧ status (set_status s request) = pending)) as Hnot
      by (intros [_ Hst]; by apply Hs).
    rewrite filter_app, length_app, filter_cons_False by exact Hnot.
    case_decide; simpl in Hle; lia.
Qed.

(** The number of pending requests of a user, once at most 1, stays at
    most 1 under any sequence of calls: the join route creates a request
    only for a user who has none pending. *)
Lemma serve_all_pending_count users io rqs e u :
  (pending_count u e ≤ 1 → pending_count u (serve_all users io e rqs) ≤ 1)%nat.
Proof.
  revert e. induction rqs as [|rq rqs IH]; intros e Hle; simpl; [done|].
  apply IH. unfold serve, commit.
  destruct (saved _) as [e'|] eqn:Hs; simpl; [|done].
  unfold pending_count in *.
  eauto using requests_change_pending, handle_requests.
Qed.

(** * Further properties of the routes *)

(** ** Success, saving and notifying *)

(** An answer 200 means that the document was saved, and an answer 400,
    403 or 404 that nothing was.  A saved document is answered with 200,
    except that a handler that cannot build its notification (the socket
    server is set and the populated user document is gone) answers 500
    after the save and emits nothing. *)
Theorem answer_and_save users io rq found :
  (code (response (handle users io rq found)) = 200 →
   is_Some (saved (handle users io rq found))) ∧
  (code (response (handle users io rq found)) = 400 ∨
   code (response (handle users io rq found)) = 403 ∨
   code (response (handle users io rq found)) = 404 →
   saved (handle users io rq found) = None) ∧
  (is_Some (saved (handle users io rq found)) →
   code (response (handle users io rq found)) = 200 ∨
   code (response (handle users io rq found)) = 500 ∧ io = true ∧
   emitted (handle users io rq found) = None).
Proof.
  destruct rq; simpl;
    unfold join, join_decide, approveRequest, rejectRequest, leave, finish;
    repeat case_match; simpl; split_and!;
    try (intros [? ?]; done); try (intros [?|[?|?]]; done);
    try (intros ?; done); try (intros ?; by eexists);
    try (intros _; by auto).
Qed.

(** A notification goes out exactly when the socket server is set, the
    route answered 200 and the route is not the leave route, which never
    notifies.  In particular no failure notifies, be it before or after
    the save. *)
Theorem notifies_iff_ok users io rq found :
  is_Some (emitted (handle users io rq found))
  ↔ io = true ∧ code (response (handle users io rq found)) = 200 ∧
    ∀ reqUser, rq ≠ Leave reqUser.
Proof.
  destruct rq; simpl;
    unfold join, join_decide, approveRequest, rejectRequest, leave, finish;
    repeat case_match; simpl; split;
    try (intros [? ?]; done);
    try (intros (? & ? & ?); done);
    try (intros _; split_and!; by eauto);
    try (intros (? & ? & Hl); by eauto).
  all: intros (_ & _ & Hl); by destruct (Hl reqUser).
Qed.

(** ** What the routes leave alone *)

Lemma handle_settings users io rq e e' :
  saved (handle users io rq (Some e)) = Some e' →
  eventId e' = eventId e ∧ title e' = title e ∧
  organizer e' = organizer e ∧
  requiresApproval e' = requiresApproval e ∧ pricing e' = pricing e ∧
  capacity e' ≫= max = capacity e ≫= max ∧
  ∃ k, waitlist e = (k ++ waitlist e')%list.
Proof.
  destruct rq; simpl;
    unfold join, join_decide, approveRequest, rejectRequest, leave;
    repeat case_match; simpl; try done; intros [= <-]; simpl;
    split_and!; try done;
    try (by destruct (capacity e));
    try (by exists []);
    try (match goal with H : capacity e = _ |- _ => by rewrite H end).
  all: match goal with H : waitlist _ = _ |- _ => rewrite ?H end.
  all: first [by exists [] | by eexists [_]].
Qed.

(** No sequence of join, approve-request, reject-request and leave calls
    changes the event's id, title, organizer, [requiresApproval], pricing
    or [capacity.max]. *)
Theorem settings_untouched users io rqs e :
  eventId (serve_all users io e rqs) = eventId e ∧
  title (serve_all users io e rqs) = title e ∧
  organizer (serve_all users io e rqs) = organizer e ∧
  requiresApproval (serve_all users io e rqs) = requiresApproval e ∧
  pricing (serve_all users io e rqs) = pricing e ∧
  capacity (serve_all users io e rqs) ≫= max = capacity e ≫= max.
Proof.
  revert e. induction rqs as [|rq rqs IH]; intros e; simpl; [done|].
  destruct (IH (serve users io e rq)) as (-> & -> & -> & -> & -> & ->).
  unfold serve, commit.
  destruct (saved _) as [e'|] eqn:Hs; simpl; [|done].
  destruct (handle_settings users io rq e e' Hs) as (? & ? & ? & ? & ? & ? & _).
  done.
Qed.

(** These four routes never put anybody on the waitlist: after any
    sequence of calls the waitlist is what is left of the original one
    once its first entries have been promoted. *)
Theorem waitlist_only_shrinks users io rqs e :
  ∃ promoted, waitlist e = (promoted ++ waitlist (serve_all users io e rqs))%list.
Proof.
  revert e. induction rqs as [|rq rqs IH]; intros e; simpl.
  - by exists [].
  - destruct (IH (serve users io e rq)) as (k2 & Hk2).
    assert (∃ k1, waitlist e = (k1 ++ waitlist (serve users io e rq))%list)
      as (k1 & Hk1).
    { unfold serve, commit.
      destruct (saved _) as [e'|] eqn:Hs; simpl; [|by exists []].
      by destruct (handle_settings users io rq e e' Hs) as (_&_&_&_&_&_&?). }
    exists (k1 ++ k2)%list. by rewrite Hk1, Hk2, app_assoc.
Qed.

(** ** Settling a request *)

Section settle.
Context (users : string → option string) (e : Event) (requestId : string)
        (i : nat) (r : JoinRequest).
Hypothesis Hfind :
  list_find (λ q, _id q = requestId) (joinRequests e) = Some (i, r).

Lemma find_after_settle s :
  list_find (λ q, _id q = requestId) (<[i := set_status s r]> (joinRequests e))
  = Some (i, set_status s r).
Proof.
  apply list_find_Some in Hfind as (Hi & Hid & Hleast).
  apply list_find_Some. split_and!.
  - apply list_lookup_insert_eq. by eapply lookup_lt_Some.
  - done.
  - intros j q Hj Hlt. rewrite list_lookup_insert_ne in Hj by lia. eauto.
Qed.

Lemma approve_ok c io :
  status r = pending → capacity e = Some c → JS.ge (current c) (max c) = false →
  ∃ e',
    approveRequest users (Some e) requestId (organizer e) io
    = finish io e'
        (join_request_approved (eventId e) (title e) <$> users (user r))
        (MessageBody "Join request approved" e')
        (ErrorBody "Failed to approve request") ∧
    e' = set_capacity (Some (set_current (current c + 1) c))
           (set_participants (participants e ++ [user r])
              (set_joinRequests (<[i := set_status approved r]> (joinRequests e))
                 e)).
Proof.
  intros Hs Hc Hge. unfold approveRequest.
  case_decide; [done|]. rewrite Hfind.
  case_decide; [done|]. rewrite Hc, Hge. eauto.
Qed.

End settle.

(** What a saved approve or reject call did. *)
Lemma settle_inv users io e requestId reqUser e' :
  saved (approveRequest users (Some e) requestId reqUser io) = Some e' ∨
  saved (rejectRequest users (Some e) requestId reqUser io) = Some e' →
  reqUser = organizer e ∧ organizer e' = organizer e ∧
  ∃ i r s,
    list_find (λ q, _id q = requestId) (joinRequests e) = Some (i, r) ∧
    status r = pending ∧ s ≠ pending ∧
    joinRequests e' = <[i := set_status s r]> (joinRequests e).
Proof.
  unfold approveRequest, rejectRequest. intros [Hs|Hs]; revert Hs.
  - case_decide as Ho; [done|].
    destruct (list_find _ _) as [[i r]|]; [|done].
    case_decide as Hp; [done|].
    destruct (capacity e) as [c|]; [|done].
    destruct (JS.ge _ _); [done|]. simpl. intros [= <-]. simpl.
    split_and!; [done|done|]. by exists i, r, approved.
  - case_decide as Ho; [done|].
    destruct (list_find _ _) as [[i r]|]; [|done].
    case_decide as Hp; [done|]. simpl. intros [= <-]. simpl.
    split_and!; [done|done|]. by exists i, r, rejected.
Qed.

(** The request an id resolves to keeps its place: whatever a handler
    does to [joinRequests], the id resolves to the same index. *)
Lemma find_persists (rs rs' : list JoinRequest) requestId i r :
  requests_change rs rs' →
  list_find (λ q, _id q = requestId) rs = Some (i, r) →
  ∃ r', list_find (λ q, _id q = requestId) rs' = Some (i, r') ∧ evolves r r'.
Proof.
  intros [|new Hnew _|j request s Hj Hp Hs] Hfind.
  - exists r. eauto using evolves_refl.
  - exists r. split; [by apply list_find_app_l|apply evolves_refl].
  - pose proof Hfind as (Hi & Hid & Hleast)%list_find_Some.
    destruct (decide (j = i)) as [->|Hne].
    + rewrite Hj in Hi. injection Hi as ->.
      exists (set_status s r). split.
      * apply list_find_Some. split_and!; [|done|].
        { apply list_lookup_insert_eq. by eapply lookup_lt_Some. }
        intros k q Hk Hlt. rewrite list_lookup_insert_ne in Hk by lia. eauto.
      * unfold evolves. simpl. split_and!; [done|done|congruence|].
        intros _. split; [done|]. destruct s; [done|by left|by right].
    + exists r. split; [|apply evolves_refl].
      apply list_find_Some. split_and!; [|done|].
      { by rewrite list_lookup_insert_ne. }
      intros k q Hk Hlt.
      apply list_lookup_insert_Some in Hk as [(-> & <- & _)|[_ Hk]]; [|eauto].
      simpl. eauto.
Qed.

Lemma serve_all_find users io rqs e requestId i r :
  list_find (λ q, _id q = requestId) (joinRequests e) = Some (i, r) →
  ∃ r', list_find (λ q, _id q = requestId)
          (joinRequests (serve_all users io e rqs)) = Some (i, r') ∧
        evolves r r'.
Proof.
  revert e r. induction rqs as [|rq rqs IH]; intros e r Hfind; simpl.
  - eauto using evolves_refl.
  - assert (∃ r1, list_find (λ q, _id q = requestId)
                    (joinRequests (serve users io e rq)) = Some (i, r1)
                  ∧ evolves r r1) as (r1 & H1 & He1).
    { unfold serve, commit.
      destruct (saved _) as [e1|] eqn:Hs; simpl.
      - eauto using find_persists, handle_requests.
      - eauto using evolves_refl. }
    destruct (IH _ _ H1) as (r' & H' & He').
    eauto using evolves_trans.
Qed.

Lemma serve_all_organizer users io rqs e :
  organizer (serve_all users io e rqs) = organizer e.
Proof.
  revert e. induction rqs as [|rq rqs IH]; intros e; simpl; [done|].
  rewrite IH. unfold serve, commit.
  destruct (saved _) as [e'|] eqn:Hs; simpl; [|done].
  by destruct (handle_settings users io rq e e' Hs) as (_ & _ & ? & _).
Qed.

(** A request is settled once.  After an approve or reject call that was
    saved, and whatever the four routes are asked to do in between, no
    later approve or reject call for that request id saves anything; made
    by the organizer it answers 400 "Request already processed". *)
Theorem settled_once users io e requestId reqUser e' users' io' rqs caller io'' :
  saved (approveRequest users (Some e) requestId reqUser io) = Some e' ∨
  saved (rejectRequest users (Some e) requestId reqUser io) = Some e' →
  saved (approveRequest users' (Some (serve_all users' io' e' rqs))
           requestId caller io'') = None ∧
  saved (rejectRequest users' (Some (serve_all users' io' e' rqs))
           requestId caller io'') = None ∧
  (caller = organizer e →
   approveRequest users' (Some (serve_all users' io' e' rqs))
     requestId caller io''
   = fail 400 "Request already processed" ∧
   rejectRequest users' (Some (serve_all users' io' e' rqs))
     requestId caller io''
   = fail 400 "Request already processed").
Proof.
  intros (-> & Ho & i & r & s & Hfind & Hp & Hs & Hrs)%settle_inv.
  assert (list_find (λ q, _id q = requestId) (joinRequests e')
          = Some (i, set_status s r)) as Hfind'.
  { rewrite Hrs. by apply find_after_settle. }
  destruct (serve_all_find users' io' rqs e' requestId i _ Hfind')
    as (r' & Hfind'' & _ & _ & Hfix & _).
  assert (r' = set_status s r) as -> by (by apply Hfix).
  unfold approveRequest, rejectRequest.
  rewrite serve_all_organizer, Ho, Hfind''.
  split_and!.
  - case_decide; [done|]. by case_decide.
  - case_decide; [done|]. by case_decide.
  - intros ->. case_decide; [done|]. by case_decide.
Qed.

Lemma settled_once_witness :
  saved (approveRequest Samples.profile
           (Some (serve_all Samples.profile true
                    (serve Samples.profile true Samples.open_gated
                       (Reject "r1" "org"))
                    [Join "a" None 3 "r2"; Leave "b"]))
           "r1" "org" true) = None ∧
  saved (rejectRequest Samples.profile
           (Some (serve_all Samples.profile true
                    (serve Samples.profile true Samples.open_gated
                       (Reject "r1" "org"))
                    [Join "a" None 3 "r2"; Leave "b"]))
           "r1" "org" true) = None ∧
  ("org" = organizer Samples.open_gated →
   approveRequest Samples.profile
     (Some (serve_all Samples.profile true
              (serve Samples.profile true Samples.open_gated (Reject "r1" "org"))
              [Join "a" None 3 "r2"; Leave "b"]))
     "r1" "org" true
   = fail 400 "Request already processed" ∧
   rejectRequest Samples.profile
     (Some (serve_all Samples.profile true
              (serve Samples.profile true Samples.open_gated (Reject "r1" "org"))
              [Join "a" None 3 "r2"; Leave "b"]))
     "r1" "org" true
   = fail 400 "Request already processed").
Proof.
  apply (settled_once Samples.profile true Samples.open_gated "r1" "org").
  right. reflexivity.
Defined.

(** Approval does not override capacity, and its capacity test reads
    [capacity.current] against [capacity.max] as stored: the organizer's
    approval of a pending request is refused as full exactly when
    [capacity.max] is present and [capacity.current] has reached it.  A
    missing [capacity.max] never refuses: the 1000 of the join route plays
    no part here. *)
Theorem approve_capacity_check users e requestId i r c io :
  list_find (λ q, _id q = requestId) (joinRequests e) = Some (i, r) →
  status r = pending → capacity e = Some c →
  (response (approveRequest users (Some e) requestId (organizer e) io)
     = CapacityExceeded
   ↔ ∃ m, max c = Some m ∧ m ≤ current c) ∧
  (saved (approveRequest users (Some e) requestId (organizer e) io) = None
   ↔ ∃ m, max c = Some m ∧ m ≤ current c).
Proof.
  intros Hfind Hp Hc.
  destruct (JS.ge (current c) (max c)) eqn:Hge.
  - assert (∃ m, max c = Some m ∧ m ≤ current c) as Hm.
    { unfold JS.ge in Hge. destruct (max c) as [m|]; [|done].
      apply bool_decide_eq_true in Hge. eauto. }
    unfold approveRequest. case_decide; [done|]. rewrite Hfind.
    case_decide; [done|]. rewrite Hc, Hge. done.
  - assert (¬ ∃ m, max c = Some m ∧ m ≤ current c) as Hm.
    { intros (m & Hmax & Hle). unfold JS.ge in Hge. rewrite Hmax in Hge.
      by apply bool_decide_eq_false in Hge. }
    destruct (approve_ok users e requestId i r Hfind c io Hp Hc Hge)
      as (e' & -> & _).
    split; (split; [|done]).
    + unfold finish. simpl. by repeat case_match.
    + done.
Qed.

Lemma approve_capacity_check_witness :
  response
    (approveRequest Samples.profile (Some Samples.full_gated) "r1" "org" true)
    = CapacityExceeded
  ↔ ∃ m, Some 1 = Some m ∧ m ≤ 1.
Proof.
  apply (approve_capacity_check Samples.profile Samples.full_gated "r1" 0%nat
           (Samples.request "r1" "a" pending)
           {| current := 1; max := Some 1 |} true).
  - vm_compute. reflexivity.
  - reflexivity.
  - reflexivity.
Defined.

(** ** Calls in sequence *)





(** Approval makes the requester a participant for the join route too:
    after a saved approval, a join call by the approved user answers
    AlreadyJoined and saves nothing, whatever else the call carries. *)
Theorem approved_user_has_joined users e requestId i r reqUser io e' tc now newId io' :
  list_find (λ q, _id q = requestId) (joinRequests e) = Some (i, r) →
  saved (approveRequest users (Some e) requestId reqUser io) = Some e' →
  user r ∈ participants e' ∧
  join users (Some e') (user r) tc now newId io'
  = fail 400 "You have already joined this event".
Proof.
  intros Hfind. unfold approveRequest.
  case_decide; [done|]. rewrite Hfind.
  case_decide; [done|].
  destruct (capacity e) as [c|]; [|done].
  destruct (JS.ge _ _); [done|]. intros Hs. simpl in Hs. injection Hs as <-.
  assert (user r ∈ (participants e ++ [user r])%list) as Hin.
  { apply elem_of_app. right. by apply list_elem_of_singleton. }
  split; [done|]. by rewrite join_already.
Qed.

Lemma approved_user_has_joined_witness :
  "a" ∈ participants (serve Samples.profile true Samples.open_gated (Approve "r1" "org")) ∧
  join Samples.profile (Some (serve Samples.profile true Samples.open_gated (Approve "r1" "org")))
    "a" None 3 "r2" true
  = fail 400 "You have already joined this event".
Proof.
  apply (approved_user_has_joined Samples.profile Samples.open_gated "r1" 0%nat
           (Samples.request "r1" "a" pending) "org" true).
  - vm_compute. reflexivity.
  - reflexivity.
Defined.

(** Joining and leaving undo each other.  On an event without approval
    gate and with an empty waitlist, whose [capacity.current] is the
    participants count, a join that passes the checks followed by a leave
    of the same user stores the very document the two calls started
    from. *)
Theorem join_then_leave_restores users e userId tc now newId io :
  requiresApproval e = false →
  waitlist e = [] →
  current_is_count e →
  userId ∉ participants e →
  Z.of_nat (length (participants e)) < maxCapacity e →
  isPaid e && JS.falsy tc = false →
  serve users io (serve users io e (Join userId tc now newId)) (Leave userId) = e.
Proof.
  intros Hgate Hw Hcnt Hnin Hroom Hpay.
  unfold current_is_count in Hcnt.
  destruct (capacity e) as [c|] eqn:Hc; [|done].
  unfold serve at 2, commit, handle.
  rewrite join_admitted by (done || by rewrite Hgate).
  unfold join_decide. rewrite Hgate. simpl. rewrite Hc. simpl.
  unfold serve, commit, handle, leave. simpl.
  rewrite list_find_first, delete_middle by done. simpl.
  rewrite Hw, app_nil_r. simpl.
  destruct e as [? ? ? cap ps ws rs gate pr]. destruct c as [cur m].
  simpl in *. subst. unfold set_capacity, set_participants, set_current.
  simpl. do 3 f_equal. rewrite length_app. simpl. lia.
Qed.

Lemma join_then_leave_restores_witness :
  serve Samples.profile true (serve Samples.profile true Samples.one_of_five (Join "b" None 0 "r1")) (Leave "b")
  = Samples.one_of_five.
Proof.
  apply (join_then_leave_restores Samples.profile Samples.one_of_five "b" None 0 "r1" true).
  - reflexivity.
  - reflexivity.
  - reflexivity.
  - compute_done.
  - vm_compute. reflexivity.
  - reflexivity.
Defined.

(** ** Nobody is a participant twice *)

Lemma filter_two {A} (P : A → Prop) `{∀ x, Decision (P x)} (l : list A) i j x y :
  (i < j)%nat → l !! i = Some x → l !! j = Some y → P x → P y →
  (2 ≤ length (filter P l))%nat.
Proof.
  intros Hlt Hi Hj Hx Hy.
  rewrite <-(take_drop_middle l i x Hi).
  rewrite filter_app, length_app, filter_cons_True by done. simpl.
  assert (y ∈ filter P (drop (S i) l)) as Hin.
  { apply list_elem_of_filter. split; [done|].
    apply list_elem_of_lookup. exists (j - S i)%nat.
    rewrite lookup_drop. by replace (S i + (j - S i))%nat with j by lia. }
  destruct (filter P (drop (S i) l)); [by apply elem_of_nil in Hin|].
  simpl. lia.
Qed.

Lemma one_pending_index e i j r q :
  (pending_count (user r) e ≤ 1)%nat →
  joinRequests e !! i = Some r → joinRequests e !! j = Some q →
  status r = pending → status q = pending → user q = user r → i = j.
Proof.
  intros Hle Hi Hj Hr Hq Hu. unfold pending_count in Hle.
  destruct (Nat.lt_trichotomy i j) as [Hlt|[->|Hlt]]; [|done|].
  - pose proof (filter_two (λ q, user q = user r ∧ status q = pending)
                  _ i j r q Hlt Hi Hj (conj eq_refl Hr) (conj Hu Hq)) as H2.
    lia.
  - pose proof (filter_two (λ q, user q = user r ∧ status q = pending)
                  _ j i q r Hlt Hj Hi (conj Hu Hq) (conj eq_refl Hr)) as H2.
    lia.
Qed.

Lemma handle_tidy users io rq e e' :
  tidy e → saved (handle users io rq (Some e)) = Some e' → tidy e'.
Proof.
  intros (Hnd & Hw & Hcount & Hpend) Hs.
  assert (∀ u, pending_count u e' ≤ 1)%nat as Hcount'.
  { intros u. unfold pending_count.
    eapply requests_change_pending; [by eapply handle_requests|apply Hcount]. }
  unfold tidy. split_and!; [| |done|].
  - (* participants *)
    destruct rq as [userId tc now newId|requestId reqUser|requestId reqUser|reqUser];
      simpl in Hs.
    + revert Hs. unfold join. case_decide as Hin; [done|].
      case_decide; [done|].
      destruct (isPaid e && JS.falsy tc); [done|].
      destruct (requiresApproval e && hasPendingRequest e userId); [done|].
      unfold join_decide. destruct (requiresApproval e); simpl;
        intros [= <-]; simpl; [done|].
      apply NoDup_app. split_and!; [done| |apply NoDup_singleton].
      intros x Hx ->%list_elem_of_singleton. done.
    + revert Hs. unfold approveRequest. case_decide; [done|].
      destruct (list_find _ _) as [[i r]|] eqn:Hfind; [|done].
      apply list_find_Some in Hfind as (Hi & _ & _).
      case_decide as Hp; [done|].
      destruct (capacity e) as [c|]; [|done].
      destruct (JS.ge _ _); [done|]. simpl. intros [= <-]. simpl.
      apply NoDup_app. split_and!; [done| |apply NoDup_singleton].
      intros x Hx ->%list_elem_of_singleton.
      by destruct (Hpend r (list_elem_of_lookup_2 _ _ _ Hi) Hp) as [_ Hnin].
    + revert Hs. unfold rejectRequest. case_decide; [done|].
      destruct (list_find _ _) as [[i r]|]; [|done].
      case_decide; [done|]. simpl. by intros [= <-].
    + revert Hs. unfold leave.
      destruct (list_find _ _) as [[index p]|]; [|done].
      destruct (capacity e) as [c|]; [|done].
      rewrite Hw. simpl. intros [= <-]. simpl.
      eapply sublist_NoDup; [exact Hnd|apply sublist_delete].
  - (* waitlist *)
    destruct (handle_settings users io rq e e' Hs) as (_&_&_&_&_&_& k & Hk).
    rewrite Hw in Hk. symmetry in Hk. by apply app_eq_nil in Hk as [_ ?].
  - (* pending requests *)
    destruct (handle_settings users io rq e e' Hs) as (_&_&_& Hgate &_).
    rewrite Hgate.
    destruct rq as [userId tc now newId|requestId reqUser|requestId reqUser|reqUser];
      simpl in Hs.
    + revert Hgate Hs. unfold join. case_decide as Hin; [done|].
      case_decide; [done|].
      destruct (isPaid e && JS.falsy tc); [done|].
      destruct (requiresApproval e && hasPendingRequest e userId); [done|].
      unfold join_decide. destruct (requiresApproval e) eqn:Hg; simpl;
        intros _ [= <-]; simpl.
      * intros r [Hr| ->%list_elem_of_singleton]%elem_of_app Hp; [eauto|done].
      * intros r Hr Hp. by destruct (Hpend r Hr Hp).
    + revert Hgate Hs. unfold approveRequest. case_decide; [done|].
      destruct (list_find _ _) as [[i r]|] eqn:Hfind; [|done].
      apply list_find_Some in Hfind as (Hi & _ & _).
      case_decide as Hp; [done|].
      destruct (capacity e) as [c|]; [|done].
      destruct (JS.ge _ _); [done|]. simpl. intros _ [= <-]. simpl.
      intros q [j Hj]%list_elem_of_lookup Hq.
      apply list_lookup_insert_Some in Hj as [(_ & <- & _)|[Hne Hj]]; [done|].
      destruct (Hpend q (list_elem_of_lookup_2 _ _ _ Hj) Hq) as [Hg Hnin].
      split; [done|]. intros [?|Hu%list_elem_of_singleton]%elem_of_app; [done|].
      apply Hne.
      by apply (one_pending_index e i j r q); [apply Hcount| | | | |].
    + revert Hgate Hs. unfold rejectRequest. case_decide; [done|].
      destruct (list_find _ _) as [[i r]|] eqn:Hfind; [|done].
      apply list_find_Some in Hfind as (Hi & _ & _).
      case_decide as Hp; [done|]. simpl. intros _ [= <-]. simpl.
      intros q [j Hj]%list_elem_of_lookup Hq.
      apply list_lookup_insert_Some in Hj as [(_ & <- & _)|[Hne Hj]]; [done|].
      exact (Hpend q (list_elem_of_lookup_2 _ _ _ Hj) Hq).
    + revert Hgate Hs. unfold leave.
      destruct (list_find _ _) as [[index p]|]; [|done].
      destruct (capacity e) as [c|]; [|done].
      rewrite Hw. simpl. intros _ [= <-]. simpl.
      intros q Hq Hp. destruct (Hpend q Hq Hp) as [Hg Hnin].
      split; [done|]. intros Hin. by apply list_elem_of_delete_inv in Hin.
Qed.

Lemma serve_all_tidy users io rqs e : tidy e → tidy (serve_all users io e rqs).
Proof.
  revert e. induction rqs as [|rq rqs IH]; intros e He; simpl; [done|].
  apply IH. unfold serve, commit.
  destruct (saved _) as [e'|] eqn:Hs; simpl; eauto using handle_tidy.
Qed.

(** Participants stay distinct.  Starting from an event with distinct
    participants, an empty waitlist, at most one pending request per user
    and pending requests only on an approval-gated event and only of users
    who are not participants (a newly created event is one), no sequence
    of join, approve-request, reject-request and leave calls lists a user
    twice among the participants or lets a participant hold a pending
    request. *)
Theorem participants_stay_distinct users io rqs e :
  tidy e →
  NoDup (participants (serve_all users io e rqs)) ∧
  ∀ r, r ∈ joinRequests (serve_all users io e rqs) → status r = pending →
       user r ∉ participants (serve_all users io e rqs).
Proof.
  intros (Hnd & _ & _ & Hpend)%(serve_all_tidy users io rqs).
  split; [done|]. intros r Hr Hp. by destruct (Hpend r Hr Hp).
Qed.

Lemma participants_stay_distinct_witness :
  NoDup (participants
           (serve_all Samples.profile true (Samples.gated Samples.blank)
              [Join "a" None 1 "r1"; Join "b" None 2 "r2";
               Approve "r1" "org"; Join "a" None 3 "r3"; Leave "a";
               Join "a" None 4 "r4"; Approve "r4" "org"])) ∧
  ∀ r, r ∈ joinRequests
             (serve_all Samples.profile true (Samples.gated Samples.blank)
                [Join "a" None 1 "r1"; Join "b" None 2 "r2";
                 Approve "r1" "org"; Join "a" None 3 "r3"; Leave "a";
                 Join "a" None 4 "r4"; Approve "r4" "org"]) →
       status r = pending →
       user r ∉ participants
                  (serve_all Samples.profile true (Samples.gated Samples.blank)
                     [Join "a" None 1 "r1"; Join "b" None 2 "r2";
                      Approve "r1" "org"; Join "a" None 3 "r3"; Leave "a";
                      Join "a" None 4 "r4"; Approve "r4" "org"]).
Proof.
  apply (participants_stay_distinct Samples.profile true _ (Samples.gated Samples.blank)).
  split_and!.
  - apply NoDup_nil_2.
  - reflexivity.
  - intros u. vm_compute. lia.
  - intros r Hr. by apply elem_of_nil in Hr.
Defined.

(** ** Organizer-only routes and deletion *)

(** Approving, rejecting and deleting are reserved to the organizer: for
    any other caller the three routes answer 403 and neither save nor
    delete anything. *)
Theorem organizer_only users db id e requestId reqUser io :
  db !! id = Some e → reqUser ≠ organizer e →
  route users io db id (Approve requestId reqUser)
    = fail 403 "Only event organizer can approve requests" ∧
  route users io db id (Reject requestId reqUser)
    = fail 403 "Only event organizer can reject requests" ∧
  deleteEvent db id reqUser = (403, DeleteError "Not authorized", db).
Proof.
  intros Hdb Hne.
  unfold route, handle, approveRequest, rejectRequest, deleteEvent.
  rewrite Hdb. by repeat case_decide.
Qed.

Lemma organizer_only_witness :
  route Samples.profile true {[ "e1" := Samples.open_gated ]} "e1" (Approve "r1" "a")
    = fail 403 "Only event organizer can approve requests" ∧
  route Samples.profile true {[ "e1" := Samples.open_gated ]} "e1" (Reject "r1" "a")
    = fail 403 "Only event organizer can reject requests" ∧
  deleteEvent {[ "e1" := Samples.open_gated ]} "e1" "a"
    = (403, DeleteError "Not authorized", {[ "e1" := Samples.open_gated ]}).
Proof.
  apply (organizer_only Samples.profile {[ "e1" := Samples.open_gated ]} "e1" Samples.open_gated).
  - apply lookup_singleton_eq.
  - discriminate.
Defined.

(** The delete route touches the collection only when the caller is the
    organizer of an existing event; it then removes exactly that event,
    after which every workflow route on that id answers 404.  No other
    event is ever affected. *)
Theorem deleteEvent_removes_only_own users db id reqUser c b db' :
  deleteEvent db id reqUser = (c, b, db') →
  (c = 200 ↔ ∃ e, db !! id = Some e ∧ organizer e = reqUser) ∧
  (c = 200 →
   db' = delete id db ∧
   ∀ io rq, route users io db' id rq = fail 404 "Event not found") ∧
  (c ≠ 200 → db' = db) ∧
  (∀ id', id' ≠ id → db' !! id' = db !! id').
Proof.
  unfold deleteEvent. destruct (db !! id) as [e|] eqn:Hdb.
  - case_decide as Ho; intros [= <- <- <-].
    + split_and!; [|done|done|done]. split; [done|].
      intros (e0 & [= <-] & ?). done.
    + split_and!.
      * split; [|done]. intros _. exists e. split; [done|].
        by destruct (decide (organizer e = reqUser)).
      * intros _. split; [done|]. intros io rq. unfold route.
        rewrite lookup_delete_eq. by destruct rq.
      * done.
      * intros id' Hne. by rewrite lookup_delete_ne.
  - intros [= <- <- <-]. split_and!; [|done|done|done].
    split; [done|]. intros (e0 & [=] & _).
Qed.

Lemma deleteEvent_removes_only_own_witness :
  route Samples.profile true (delete "e1" {[ "e1" := Samples.blank ]}) "e1"
    (Join "u" None 0 "r1")
  = fail 404 "Event not found".
Proof.
  apply (deleteEvent_removes_only_own Samples.profile {[ "e1" := Samples.blank ]} "e1" "org"
           200 (DeleteMessage "Event deleted successfully")
           (delete "e1" {[ "e1" := Samples.blank ]})).
  - unfold deleteEvent. rewrite lookup_singleton_eq. reflexivity.
  - reflexivity.
Defined.

(** ** The earlier join route and the waitlist *)

Lemma full_set_participants ps e : full (set_participants ps e) = full e.
Proof. done. Qed.

Lemma handleLegacy_invariant rq e e' :
  capacity_bound e → current_is_count e → queued e →
  saved (handleLegacy rq (Some e)) = Some e' →
  capacity_bound e' ∧ current_is_count e' ∧ queued e'.
Proof.
  unfold capacity_bound, current_is_count, queued, full.
  destruct (capacity e) as [c|] eqn:Hc; [|done].
  destruct (max c) as [m|] eqn:Hm; [|done].
  intros Hb Hcnt [Hnd Hfull].
  destruct rq as [reqUser|reqUser]; simpl.
  - unfold joinLegacy. case_decide as Hin; [done|]. rewrite Hc.
    destruct (JS.ge (current c) (max c)) eqn:Hge.
    + case_decide as Hw; [|done]. simpl. intros [= <-]. simpl.
      rewrite Hc. cbn beta iota. rewrite Hge, Hm.
      split; [done|]. split; [done|]. split; [|done].
      rewrite app_assoc. apply NoDup_app.
      split; [done|]. split; [|apply NoDup_singleton].
      intros x Hx ->%list_elem_of_singleton.
      apply elem_of_app in Hx as [?|?]; done.
    + simpl. intros [= <-]. simpl. rewrite Hm.
      unfold JS.ge in Hge. rewrite Hm in Hge.
      apply bool_decide_eq_false in Hge.
      assert (waitlist e = []) as Hw.
      { destruct (waitlist e); [done|]. exfalso. apply Hge.
        assert (JS.ge (current c) (Some m) = true) as Hf by (by apply Hfull).
        by apply bool_decide_eq_true in Hf. }
      rewrite Hw, app_nil_r in *.
      split; [lia|]. split; [rewrite length_app; simpl; lia|].
      split; [|done]. apply NoDup_app.
      split; [done|]. split; [|apply NoDup_singleton].
      by intros x Hx ->%list_elem_of_singleton.
  - unfold leave.
    destruct (list_find _ _) as [[index p]|] eqn:Hfind; [|done].
    apply list_find_Some in Hfind as (Hlook & _ & _).
    assert (Hlen : length (delete index (participants e))
                   = (length (participants e) - 1)%nat)
      by (apply length_delete; eauto).
    assert (0 < length (participants e))%nat
      by (apply lookup_lt_Some in Hlook; lia).
    rewrite Hc.
    destruct (waitlist e) as [|nextUser rest] eqn:Hw; simpl; intros [= <-];
      simpl; rewrite ?Hm.
    + rewrite ?Hw, app_nil_r in *.
      split; [lia|]. split; [lia|]. split; [|done].
      eapply sublist_NoDup; [exact Hnd|apply sublist_delete].
    + replace (current c - 1 + 1) with (current c) by lia.
      split; [lia|]. split; [rewrite length_app; simpl; lia|]. split.
      * rewrite <-app_assoc. simpl.
        eapply sublist_NoDup; [exact Hnd|].
        apply sublist_app; [apply sublist_delete|done].
      * intros _. by apply Hfull.
Qed.

(** Under the earlier join route and the leave route the roster stays
    sound for any [capacity.max]: [0 <= capacity.current <= capacity.max]
    holds with [capacity.current] the participants count, nobody is listed
    twice among participants and waitlist together, and somebody waits
    only while the event is full. *)
Theorem legacy_roster_sound rqs e :
  capacity_bound e → current_is_count e → queued e →
  capacity_bound (serveLegacy_all e rqs) ∧
  current_is_count (serveLegacy_all e rqs) ∧
  queued (serveLegacy_all e rqs).
Proof.
  revert e. induction rqs as [|rq rqs IH]; intros e Hb Hc Hq; simpl; [done|].
  assert (capacity_bound (serveLegacy e rq) ∧ current_is_count (serveLegacy e rq)
          ∧ queued (serveLegacy e rq)) as (? & ? & ?).
  { unfold serveLegacy, commit.
    destruct (saved _) as [e'|] eqn:Hs; simpl; [|done].
    by eapply handleLegacy_invariant. }
  by apply IH.
Qed.

Lemma legacy_roster_sound_witness :
  capacity_bound
    (serveLegacy_all Samples.zero_max
       [LegacyJoin "a"; LegacyJoin "b"; LegacyLeave "a"; LegacyJoin "a"]) ∧
  current_is_count
    (serveLegacy_all Samples.zero_max
       [LegacyJoin "a"; LegacyJoin "b"; LegacyLeave "a"; LegacyJoin "a"]) ∧
  queued
    (serveLegacy_all Samples.zero_max
       [LegacyJoin "a"; LegacyJoin "b"; LegacyLeave "a"; LegacyJoin "a"]).
Proof.
  apply (legacy_roster_sound _ Samples.zero_max).
  - vm_compute. split; discriminate.
  - reflexivity.
  - split; [apply NoDup_nil_2|done].
Defined.

(** Waiting in line.  On a full event the earlier join route puts a new
    user at the end of the waitlist and changes nothing else; a second
    call by the waiting user is refused with nothing saved; and when a
    participant then leaves, it is the head of that waitlist who takes the
    place, the rest keeping their order and [capacity] its value. *)
Theorem waitlisted_in_order e c reqUser leaver :
  capacity e = Some c → JS.ge (current c) (max c) = true →
  reqUser ∉ participants e → reqUser ∉ waitlist e →
  leaver ∈ participants e →
  ∃ e1 e2 before after nextUser rest,
    saved (joinLegacy (Some e) reqUser) = Some e1 ∧
    e1 = set_waitlist (waitlist e ++ [reqUser]) e ∧
    joinLegacy (Some e1) reqUser = fail 400 "Event is full and waitlist full" ∧
    saved (leave (Some e1) leaver) = Some e2 ∧
    participants e = (before ++ leaver :: after)%list ∧
    (waitlist e ++ [reqUser])%list = nextUser :: rest ∧
    participants e2 = (before ++ after ++ [nextUser])%list ∧
    waitlist e2 = rest ∧
    capacity e2 = Some c.
Proof.
  intros Hc Hge Hnin Hnw Hin.
  apply list_elem_of_split_l in Hin as (before & after & Hps & Hnb).
  assert (∃ nextUser rest, (waitlist e ++ [reqUser])%list = nextUser :: rest)
    as (nextUser & rest & Hw).
  { destruct (waitlist e); simpl; eauto. }
  set (e1 := set_waitlist (waitlist e ++ [reqUser]) e).
  destruct (leave_participant e1 leaver before after c)
    as (e2 & Hl & _ & Hrest); [done..|].
  exists e1, e2, before, after, nextUser, rest.
  assert (waitlist e1 = nextUser :: rest) as Hw1 by done.
  rewrite Hw1 in Hrest. destruct Hrest as (? & ? & ?).
  split_and!; try done.
  - unfold joinLegacy. case_decide; [done|]. rewrite Hc, Hge.
    by case_decide.
  - unfold joinLegacy, e1, set_waitlist. cbn [participants capacity waitlist].
    case_decide; [done|]. rewrite Hc, Hge.
    case_decide as Hw2; [|done]. destruct Hw2.
    apply elem_of_app. right. by apply list_elem_of_singleton.
  - by rewrite Hl.
Qed.

Lemma waitlisted_in_order_witness :
  ∃ e1 e2 before after nextUser rest,
    saved (joinLegacy (Some Samples.with_waitlist) "C") = Some e1 ∧
    e1 = set_waitlist (waitlist Samples.with_waitlist ++ ["C"])
           Samples.with_waitlist ∧
    joinLegacy (Some e1) "C" = fail 400 "Event is full and waitlist full" ∧
    saved (leave (Some e1) "U2") = Some e2 ∧
    participants Samples.with_waitlist = (before ++ "U2" :: after)%list ∧
    (waitlist Samples.with_waitlist ++ ["C"])%list = nextUser :: rest ∧
    participants e2 = (before ++ after ++ [nextUser])%list ∧
    waitlist e2 = rest ∧
    capacity e2 = Some {| current := 2; max := Some 2 |}.
Proof.
  apply (waitlisted_in_order Samples.with_waitlist
           {| current := 2; max := Some 2 |} "C" "U2").
  - reflexivity.
  - reflexivity.
  - compute_done.
  - compute_done.
  - compute_done.
Defined.

(** ** More on joining *)

(** What the join route stores on an approval-gated event: one request
    appended last, pending, with the id and time given, for the caller;
    its transaction code is never empty ("FREE" stands in for a missing
    one) and on a paid event it is the code the caller sent.  Participants
    and capacity are untouched. *)
Theorem stored_request_has_code users e userId tc now newId io e' :
  requiresApproval e = true →
  saved (join users (Some e) userId tc now newId io) = Some e' →
  ∃ r, joinRequests e' = (joinRequests e ++ [r])%list ∧
       _id r = newId ∧ user r = userId ∧ requestedAt r = now ∧
       status r = pending ∧
       transactionCode r ≠ "" ∧
       (isPaid e = true → tc = Some (transactionCode r)) ∧
       participants e' = participants e ∧ capacity e' = capacity e.
Proof.
  intros Hgate. unfold join. case_decide; [done|]. case_decide; [done|].
  destruct (isPaid e && JS.falsy tc) eqn:Hpay; [done|].
  destruct (requiresApproval e && hasPendingRequest e userId); [done|].
  unfold join_decide. rewrite Hgate. simpl. intros [= <-]. simpl.
  eexists. split; [reflexivity|]. simpl. split_and!; try done.
  - unfold JS.or_string. destruct tc as [t|]; [|done]. by case_decide.
  - intros Hp. rewrite Hp in Hpay. simpl in Hpay.
    unfold JS.falsy, JS.or_string in *. destruct tc as [t|]; [|done].
    apply bool_decide_eq_false in Hpay. by case_decide.
Qed.

Lemma stored_request_has_code_witness :
  ∃ r, joinRequests
         (serve Samples.profile true Samples.paid_gated (Join "u" (Some "TX1") 4 "r1"))
       = (joinRequests Samples.paid_gated ++ [r])%list ∧
       _id r = "r1" ∧ user r = "u" ∧ requestedAt r = 4 ∧
       status r = pending ∧
       transactionCode r ≠ "" ∧
       (isPaid Samples.paid_gated = true → Some "TX1" = Some (transactionCode r)) ∧
       participants
         (serve Samples.profile true Samples.paid_gated (Join "u" (Some "TX1") 4 "r1"))
       = participants Samples.paid_gated ∧
       capacity (serve Samples.profile true Samples.paid_gated (Join "u" (Some "TX1") 4 "r1"))
       = capacity Samples.paid_gated.
Proof.
  apply (stored_request_has_code Samples.profile Samples.paid_gated "u" (Some "TX1") 4 "r1" true).
  - reflexivity.
  - reflexivity.
Defined.

Lemma full_iff_limit e :
  consistent e →
  (maxCapacity e ≤ Z.of_nat (length (participants e)) ↔ full e = true).
Proof.
  intros (c & m & Hc & Hm & Hpos & Hb & Hcnt)%consistent_inv.
  rewrite (maxCapacity_some e c m) by (done || lia).
  unfold full, JS.ge. rewrite Hc, Hm, bool_decide_eq_true. lia.
Qed.

(** On a document whose ledger is consistent the two capacity tests agree:
    the join route's [participants.length >= (capacity.max || 1000)] holds
    exactly when the approve route's
    [capacity.current >= capacity.max] does. *)
Theorem capacity_tests_agree e :
  consistent e →
  (maxCapacity e ≤ Z.of_nat (length (participants e)) ↔ full e = true).
Proof. apply full_iff_limit. Qed.

Lemma capacity_tests_agree_witness :
  maxCapacity Samples.two_of_two
    ≤ Z.of_nat (length (participants Samples.two_of_two))
  ↔ full Samples.two_of_two = true.
Proof.
  apply (capacity_tests_agree Samples.two_of_two).
  split_and!.
  - vm_compute. split; discriminate.
  - reflexivity.
  - vm_compute. discriminate.
Defined.

(** A leave frees one place when nobody waits, and none when somebody
    does.  Take an event without approval gate whose participants count
    has reached [capacity.max >= 1], and a newcomer who passes the payment
    check: the join call is refused as full.  After a participant has left
    with the waitlist empty, the same call saves the event with the
    newcomer admitted and as many participants as before (answering Joined
    whenever the notification can be built).  With somebody waiting, the
    leave hands the place to the head of the waitlist, and the newcomer is
    still refused as full. *)
Theorem leave_frees_a_place users e c m leaver userId tc now newId io :
  requiresApproval e = false →
  capacity e = Some c → max c = Some m → 1 ≤ m →
  Z.of_nat (length (participants e)) = m →
  leaver ∈ participants e →
  userId ∉ participants e → userId ∉ waitlist e →
  isPaid e && JS.falsy tc = false →
  join users (Some e) userId tc now newId io
    = fail 400 "Event is at full capacity" ∧
  (waitlist e = [] →
   ∃ e2,
     saved (join users (Some (serve users io e (Leave leaver)))
              userId tc now newId io) = Some e2 ∧
     (io = false ∨ is_Some (users (organizer e)) →
      response (join users (Some (serve users io e (Leave leaver)))
                  userId tc now newId io) = Joined e2) ∧
     userId ∈ participants e2 ∧
     length (participants e2) = length (participants e)) ∧
  (∀ nextUser rest, waitlist e = nextUser :: rest →
   nextUser ∈ participants (serve users io e (Leave leaver)) ∧
   waitlist (serve users io e (Leave leaver)) = rest ∧
   join users (Some (serve users io e (Leave leaver))) userId tc now newId io
     = fail 400 "Event is at full capacity").
Proof.
  intros Hgate Hc Hm Hpos Hcnt Hin Hnin Hnw Hpay.
  pose proof (maxCapacity_some e c m Hc Hm ltac:(lia)) as Hmax.
  split; [by rewrite join_full by (done || lia)|].
  apply list_elem_of_split_l in Hin as (before & after & Hps & Hnb).
  destruct (leave_participant e leaver before after c Hps Hnb Hc)
    as (e1 & Hl & _ & Hrest).
  assert (serve users io e (Leave leaver) = e1) as ->.
  { unfold serve, commit, handle. by rewrite Hl. }
  assert (saved (handle users io (Leave leaver) (Some e)) = Some e1) as Hs
    by (change (saved (leave (Some e) leaver) = Some e1); by rewrite Hl).
  destruct (handle_settings users io _ e e1 Hs)
    as (_ & _ & Horg & Hg1 & Hpr & Hmx & _).
  assert (maxCapacity e1 = m) as Hmax'.
  { unfold maxCapacity. rewrite Hmx, Hc. simpl. rewrite Hm. simpl.
    case_decide; [lia|done]. }
  assert (isPaid e1 = isPaid e) as Hpaid by (unfold isPaid; by rewrite Hpr).
  rewrite Hps in Hcnt, Hnin. rewrite length_app in Hcnt. simpl in Hcnt.
  apply not_elem_of_app in Hnin as [Hn1 Hn2%not_elem_of_cons].
  destruct Hn2 as [_ Hn2].
  split.
  - intros Hw. rewrite Hw in Hrest. destruct Hrest as (Hps1 & _ & _).
    rewrite join_admitted.
    + destruct (join_decide_open users e1 userId tc now newId io)
        as (e2 & He2 & Hs2 & Hresp2); [by rewrite Hg1|].
      exists e2. split; [done|]. split; [by rewrite <-Horg|].
      subst e2. simpl. split.
      * apply elem_of_app. right. by apply list_elem_of_singleton.
      * rewrite Hps1, Hps, !length_app. simpl. lia.
    + rewrite Hps1. by apply not_elem_of_app.
    + rewrite Hmax', Hps1, length_app. lia.
    + by rewrite Hpaid.
    + by rewrite Hg1, Hgate.
  - intros nextUser rest Hw. rewrite Hw in Hrest, Hnw.
    destruct Hrest as (Hps1 & Hw1 & _).
    split; [|split; [done|]].
    + rewrite Hps1, !elem_of_app. right. right.
      by apply list_elem_of_singleton.
    + rewrite join_full; [done| |].
      * rewrite Hps1. apply not_elem_of_cons in Hnw as [Hne _].
        rewrite !not_elem_of_app. split_and!; [done|done|].
        by intros ?%list_elem_of_singleton.
      * rewrite Hmax', Hps1, !length_app. simpl. lia.
Qed.

Lemma leave_frees_a_place_witness :
  join Samples.profile (Some Samples.with_waitlist) "X" None 0 "r1" true
    = fail 400 "Event is at full capacity" ∧
  (waitlist Samples.with_waitlist = [] →
   ∃ e2,
     saved (join Samples.profile
              (Some (serve Samples.profile true Samples.with_waitlist
                       (Leave "U1")))
              "X" None 0 "r1" true) = Some e2 ∧
     (true = false ∨ is_Some (Samples.profile (organizer Samples.with_waitlist)) →
      response (join Samples.profile
                  (Some (serve Samples.profile true Samples.with_waitlist
                           (Leave "U1")))
                  "X" None 0 "r1" true) = Joined e2) ∧
     "X" ∈ participants e2 ∧
     length (participants e2) = length (participants Samples.with_waitlist)) ∧
  (∀ nextUser rest, waitlist Samples.with_waitlist = nextUser :: rest →
   nextUser ∈ participants
                (serve Samples.profile true Samples.with_waitlist (Leave "U1")) ∧
   waitlist (serve Samples.profile true Samples.with_waitlist (Leave "U1"))
     = rest ∧
   join Samples.profile
     (Some (serve Samples.profile true Samples.with_waitlist (Leave "U1")))
     "X" None 0 "r1" true
     = fail 400 "Event is at full capacity").
Proof.
  apply (leave_frees_a_place Samples.profile Samples.with_waitlist
           {| current := 2; max := Some 2 |} 2 "U1" "X" None 0 "r1" true).
  - reflexivity.
  - reflexivity.
  - reflexivity.
  - lia.
  - reflexivity.
  - compute_done.
  - compute_done.
  - compute_done.
  - reflexivity.
Defined.

Lemma serve_all_consistent_witness :
  consistent
    (serve_all Samples.profile true Samples.one_of_five
       [Join "b" None 0 "r1"; Leave "a"; Join "b" None 1 "r2";
        Approve "r1" "org"; Leave "zz"]).
Proof.
  apply (serve_all_consistent Samples.profile true _ Samples.one_of_five).
  split_and!.
  - vm_compute. split; discriminate.
  - reflexivity.
  - vm_compute. discriminate.
Defined.

Lemma serve_all_pending_count_witness :
  (pending_count "a"
     (serve_all Samples.profile true Samples.open_gated
        [Join "a" None 1 "r2"; Reject "r1" "org"; Join "a" None 2 "r3";
         Join "a" None 3 "r4"]) ≤ 1)%nat.
Proof.
  apply (serve_all_pending_count Samples.profile true _ Samples.open_gated "a").
  vm_compute. lia.
Defined.

(** ** The two join routes compared *)


